(** * Define-use chains of the MoarVM specializer (spesh usages)

    A shallow embedding of the usage bookkeeping of [src/src/moarvm.c]
    (the part that starts at [#include "moar.h"]): registration and removal
    of usage-chain entries, the deopt and handler marks, the liveness queries
    and the debug checker of the define-use chains, followed by the
    properties of that code.

    Conventions of the embedding.
    - A C pointer to an instruction is the address it holds, an [N]; two
      pointers are equal when the addresses are.  An [MVMSpeshIns] record
      carries its own address in [ins_addr], so that [by == cur->user] of the
      source reads [user cur =? ins_addr by_ins].
    - The singly linked lists of the source (usage chain through [next],
      instructions through [next], basic blocks through [linear_next]) are
      lists, the head of the list being the head pointer.
    - The two-dimensional array [g->facts[orig][i]] is a list of lists read
      and updated by index; an index outside of it has no meaning in C, and
      every function that would touch it yields [None].
    - A function that returns [void] returns the memory it leaves behind;
      [MVM_oops] does not return, and [Oops] holds the diagnostic together with
      the memory as it is when [MVM_oops] is called. *)

From stdpp Require Import base numbers option list strings.
From Stdlib Require Import DecimalString.

Local Open Scope Z_scope.

Module Spesh.

(** ** Data model *)

(** Modelled from the spec: the struct declarations live in [moar.h], which is
    not among the sources; the fields are the ones the functions of
    [moarvm.c] read and write, with the two marks boolean as in the data
    model of the specification. *)
Record MVMOpInfo := {
  opcode : Z;
  name : string;
  num_operands : N;
  operands : list Z
}.

Record MVMSpeshOperand := {
  reg_orig : N;
  reg_i : N
}.

Record MVMSpeshIns := {
  ins_addr : N;
  info : MVMOpInfo;
  ins_operands : list MVMSpeshOperand
}.

Record MVMSpeshUseChainEntry := {
  user : N
}.

Record MVMSpeshUsages := {
  users : list MVMSpeshUseChainEntry;
  deopt_required : bool;
  handler_required : bool
}.

Record MVMSpeshFacts := {
  writer : N;
  usage : MVMSpeshUsages
}.

Record MVMSpeshBB := {
  idx : Z;
  first_ins : list MVMSpeshIns
}.

Record MVMSpeshGraph := {
  entry : list MVMSpeshBB;
  facts : list (list MVMSpeshFacts)
}.

(** Field assignments. *)
Definition set_users (l : list MVMSpeshUseChainEntry) (f : MVMSpeshFacts) : MVMSpeshFacts :=
  {| writer := writer f;
     usage := {| users := l;
                 deopt_required := deopt_required (usage f);
                 handler_required := handler_required (usage f) |} |}.

Definition set_deopt_required (b : bool) (f : MVMSpeshFacts) : MVMSpeshFacts :=
  {| writer := writer f;
     usage := {| users := users (usage f);
                 deopt_required := b;
                 handler_required := handler_required (usage f) |} |}.

Definition set_handler_required (b : bool) (f : MVMSpeshFacts) : MVMSpeshFacts :=
  {| writer := writer f;
     usage := {| users := users (usage f);
                 deopt_required := deopt_required (usage f);
                 handler_required := b |} |}.

(** What a call leaves behind: a normal return, or the call of [MVM_oops]. *)
Inductive outcome (S : Type) : Type :=
| Returns (s : S)
| Oops (diag : string) (s : S).
Arguments Returns {S} s.
Arguments Oops {S} diag s.

Definition final {S : Type} (o : outcome S) : S :=
  match o with
  | Returns s => s
  | Oops _ s => s
  end.

Definition diagnostic {S : Type} (o : outcome S) : option string :=
  match o with
  | Returns _ => None
  | Oops d _ => Some d
  end.

(** ** The facts table of a graph *)

(** Modelled from the spec: [MVM_spesh_get_facts] is declared outside of the
    sources; it resolves an operand to its Facts, the entry
    [g->facts[orig][i]] that the checker addresses directly. *)
Definition MVM_spesh_get_facts (g : MVMSpeshGraph) (o : MVMSpeshOperand) : option MVMSpeshFacts :=
  row ← facts g !! N.to_nat (reg_orig o);
  row !! N.to_nat (reg_i o).

(** Writing through the pointer that [MVM_spesh_get_facts] returned. *)
Definition put_facts (g : MVMSpeshGraph) (o : MVMSpeshOperand) (f : MVMSpeshFacts) : MVMSpeshGraph :=
  {| entry := entry g;
     facts := alter (fun row => <[N.to_nat (reg_i o) := f]> row)
                    (N.to_nat (reg_orig o)) (facts g) |}.

(** ** Registration *)

(** [MVM_spesh_usages_add]: a new entry for [by] becomes the head of the
    chain.  The entry comes from the arena of the graph, which nothing here
    reads. *)
Definition MVM_spesh_usages_add (facts : MVMSpeshFacts) (by_ins : MVMSpeshIns) : MVMSpeshFacts :=
  let entry := {| user := ins_addr by_ins |} in
  set_users (entry :: users (usage facts)) facts.

Definition MVM_spesh_usages_add_by_reg (g : MVMSpeshGraph) (used : MVMSpeshOperand)
    (by_ins : MVMSpeshIns) : option MVMSpeshGraph :=
  facts ← MVM_spesh_get_facts g used;
  Some (put_facts g used (MVM_spesh_usages_add facts by_ins)).

(** ** Removal *)

Definition delete_diag (by_ins : MVMSpeshIns) : string :=
  "Spesh: instruction " +:+ name (info by_ins) +:+ " missing from define-use chain".

(** The loop of [MVM_spesh_usages_delete].  [cur] is the chain from the
    current entry on; [prev] stands for the part of the chain that ends in
    the entry [prev] points to, empty while [prev] is NULL. *)
Fixpoint usages_delete_loop (facts : MVMSpeshFacts) (by_ins : MVMSpeshIns)
    (prev cur : list MVMSpeshUseChainEntry) : outcome MVMSpeshFacts :=
  match cur with
  | [] => Oops (delete_diag by_ins) facts
  | c :: next =>
      if (user c =? ins_addr by_ins)%N then
        match prev with
        | _ :: _ => Returns (set_users (prev ++ next) facts)
        | [] => Returns (set_users next facts)
        end
      else usages_delete_loop facts by_ins (prev ++ [c]) next
  end.

Definition MVM_spesh_usages_delete (facts : MVMSpeshFacts) (by_ins : MVMSpeshIns)
    : outcome MVMSpeshFacts :=
  usages_delete_loop facts by_ins [] (users (usage facts)).

Definition MVM_spesh_usages_delete_by_reg (g : MVMSpeshGraph) (used : MVMSpeshOperand)
    (by_ins : MVMSpeshIns) : option (outcome MVMSpeshGraph) :=
  facts ← MVM_spesh_get_facts g used;
  match MVM_spesh_usages_delete facts by_ins with
  | Returns facts' => Some (Returns (put_facts g used facts'))
  | Oops d facts' => Some (Oops d (put_facts g used facts'))
  end.

(** ** Deopt and handler marks *)

Definition MVM_spesh_usages_add_for_deopt (facts : MVMSpeshFacts) : MVMSpeshFacts :=
  set_deopt_required true facts.

Definition MVM_spesh_usages_add_for_deopt_by_reg (g : MVMSpeshGraph) (used : MVMSpeshOperand)
    : option MVMSpeshGraph :=
  facts ← MVM_spesh_get_facts g used;
  Some (put_facts g used (MVM_spesh_usages_add_for_deopt facts)).

Definition MVM_spesh_usages_add_for_handler (facts : MVMSpeshFacts) : MVMSpeshFacts :=
  set_handler_required true facts.

Definition MVM_spesh_usages_add_for_handler_by_reg (g : MVMSpeshGraph) (used : MVMSpeshOperand)
    : option MVMSpeshGraph :=
  facts ← MVM_spesh_get_facts g used;
  Some (put_facts g used (MVM_spesh_usages_add_for_handler facts)).

(** ** Queries; the result is the [MVMuint32] the source returns *)

Definition is_null {A : Type} (p : list A) : bool :=
  match p with
  | [] => true
  | _ :: _ => false
  end.

Definition MVM_spesh_usages_is_used (g : MVMSpeshGraph) (check : MVMSpeshOperand) : option Z :=
  facts ← MVM_spesh_get_facts g check;
  Some (Z.b2z (deopt_required (usage facts) || handler_required (usage facts)
               || negb (is_null (users (usage facts))))).

Definition MVM_spesh_usages_is_used_by_deopt (g : MVMSpeshGraph) (check : MVMSpeshOperand) : option Z :=
  facts ← MVM_spesh_get_facts g check;
  Some (Z.b2z (deopt_required (usage facts))).

Definition MVM_spesh_usages_is_used_by_handler (g : MVMSpeshGraph) (check : MVMSpeshOperand) : option Z :=
  facts ← MVM_spesh_get_facts g check;
  Some (Z.b2z (handler_required (usage facts))).

Definition MVM_spesh_usages_used_once (g : MVMSpeshGraph) (check : MVMSpeshOperand) : option Z :=
  facts ← MVM_spesh_get_facts g check;
  Some (Z.b2z (negb (deopt_required (usage facts)) && negb (handler_required (usage facts))
               && match users (usage facts) with
                  | [] => false
                  | _ :: next => is_null next
                  end)).

(** [count] is an [MVMuint32]: [count++] wraps at [2^32]. *)
Fixpoint usages_count_loop (count : Z) (cur : list MVMSpeshUseChainEntry) : Z :=
  match cur with
  | [] => count
  | _ :: next => usages_count_loop ((count + 1) mod 2 ^ 32) next
  end.

Definition MVM_spesh_usages_count (g : MVMSpeshGraph) (check : MVMSpeshOperand) : option Z :=
  facts ← MVM_spesh_get_facts g check;
  Some (usages_count_loop 0 (users (usage facts))).

(** ** Callers of the subsystem *)

#[global] Instance MVMSpeshOperand_eq_dec : EqDecision MVMSpeshOperand.
Proof. solve_decision. Defined.

(** [n] successive calls of [MVM_spesh_usages_delete] with the same
    arguments; nothing runs after [MVM_oops]. *)
Fixpoint delete_times (n : nat) (facts : MVMSpeshFacts) (by_ins : MVMSpeshIns)
    : outcome MVMSpeshFacts :=
  match n with
  | O => Returns facts
  | S n' =>
      match MVM_spesh_usages_delete facts by_ins with
      | Returns facts' => delete_times n' facts' by_ins
      | Oops d facts' => Oops d facts'
      end
  end.

(** The number of chain entries whose user is the instruction at [a]. *)
Definition entries_of (a : N) (chain : list MVMSpeshUseChainEntry) : nat :=
  length (filter (fun e => user e = a) chain).

(** One call into the subsystem, as an optimization pass makes it. *)
Inductive usage_call : Type :=
| Call_add (used : MVMSpeshOperand) (by_ins : MVMSpeshIns)
| Call_delete (used : MVMSpeshOperand) (by_ins : MVMSpeshIns)
| Call_add_for_deopt (used : MVMSpeshOperand)
| Call_add_for_handler (used : MVMSpeshOperand)
| Call_is_used (check : MVMSpeshOperand)
| Call_is_used_by_deopt (check : MVMSpeshOperand)
| Call_is_used_by_handler (check : MVMSpeshOperand)
| Call_used_once (check : MVMSpeshOperand)
| Call_count (check : MVMSpeshOperand).

Definition run_call (c : usage_call) (g : MVMSpeshGraph) : option (outcome MVMSpeshGraph) :=
  match c with
  | Call_add used by_ins => Returns <$> MVM_spesh_usages_add_by_reg g used by_ins
  | Call_delete used by_ins => MVM_spesh_usages_delete_by_reg g used by_ins
  | Call_add_for_deopt used => Returns <$> MVM_spesh_usages_add_for_deopt_by_reg g used
  | Call_add_for_handler used => Returns <$> MVM_spesh_usages_add_for_handler_by_reg g used
  | Call_is_used check => MVM_spesh_usages_is_used g check ≫= fun _ => Some (Returns g)
  | Call_is_used_by_deopt check =>
      MVM_spesh_usages_is_used_by_deopt g check ≫= fun _ => Some (Returns g)
  | Call_is_used_by_handler check =>
      MVM_spesh_usages_is_used_by_handler g check ≫= fun _ => Some (Returns g)
  | Call_used_once check => MVM_spesh_usages_used_once g check ≫= fun _ => Some (Returns g)
  | Call_count check => MVM_spesh_usages_count g check ≫= fun _ => Some (Returns g)
  end.

Fixpoint run_calls (cs : list usage_call) (g : MVMSpeshGraph) : option (outcome MVMSpeshGraph) :=
  match cs with
  | [] => Some (Returns g)
  | c :: rest =>
      match run_call c g with
      | Some (Returns g') => run_calls rest g'
      | stop => stop
      end
  end.

(** The marks that are set in [facts] are set in [facts']. *)
Definition marks_kept (facts facts' : MVMSpeshFacts) : Prop :=
  (deopt_required (usage facts) = true -> deopt_required (usage facts') = true) /\
  (handler_required (usage facts) = true -> handler_required (usage facts') = true).

(** What C9 asks of the diagnostic of a failed removal: the value can be told
    from it, so two failed removals on two values differ in their
    diagnostics. *)
Definition delete_diag_tells_value : Prop :=
  forall g used1 used2 by_ins d g1 g2,
    MVM_spesh_usages_delete_by_reg g used1 by_ins = Some (Oops d g1) ->
    MVM_spesh_usages_delete_by_reg g used2 by_ins = Some (Oops d g2) ->
    used1 = used2.

(** ** The checker of the define-use chains *)

Section Checker.

(** Modelled from the spec: the constants of the operand descriptors, the
    opcode of PHI and the graph dump are declared outside of the sources. *)
Variable MVM_SSA_PHI : Z.
Variable MVM_operand_rw_mask : Z.
Variable MVM_operand_read_reg : Z.
Variable MVM_operand_write_reg : Z.
Variable MVM_spesh_dump : MVMSpeshGraph -> string.

(** [%d] of an unsigned field and of a block index. *)
Definition dec (z : Z) : string := NilZero.string_of_int (Z.to_int z).

Definition newline : string := String (Ascii.ascii_of_nat 10) EmptyString.

Definition ins_name (is_phi : bool) (cur_ins : MVMSpeshIns) : string :=
  if is_phi then "PHI" else name (info cur_ins).

Definition reader_diag (g : MVMSpeshGraph) (cur_bb : MVMSpeshBB) (cur_ins : MVMSpeshIns)
    (is_phi : bool) (o : MVMSpeshOperand) : string :=
  "Malformed DU chain: reader " +:+ ins_name is_phi cur_ins +:+ " of "
    +:+ dec (Z.of_N (reg_orig o)) +:+ "(" +:+ dec (Z.of_N (reg_i o)) +:+ ") in BB "
    +:+ dec (idx cur_bb) +:+ " missing" +:+ newline +:+ MVM_spesh_dump g.

Definition writer_diag (g : MVMSpeshGraph) (cur_bb : MVMSpeshBB) (cur_ins : MVMSpeshIns)
    (is_phi : bool) (o : MVMSpeshOperand) : string :=
  "Malformed DU chain: writer " +:+ ins_name is_phi cur_ins +:+ " of "
    +:+ dec (Z.of_N (reg_orig o)) +:+ "(" +:+ dec (Z.of_N (reg_i o)) +:+ ") in BB "
    +:+ dec (idx cur_bb) +:+ " is incorrect" +:+ newline +:+ MVM_spesh_dump g.

(** The search loop: [found] at its exit. *)
Fixpoint find_user (cur_ins : MVMSpeshIns) (use_entry : list MVMSpeshUseChainEntry) : bool :=
  match use_entry with
  | [] => false
  | e :: next => if (user e =? ins_addr cur_ins)%N then true else find_user cur_ins next
  end.

(** [cur_ins->info->operands[i] & MVM_operand_rw_mask] *)
Definition operand_rw (cur_ins : MVMSpeshIns) (i : nat) : option Z :=
  d ← operands (info cur_ins) !! i;
  Some (Z.land d MVM_operand_rw_mask).

(** The two conditions of the loop body, evaluated left to right as C does:
    the descriptor of a PHI is never read. *)
Definition reads_operand (is_phi : bool) (cur_ins : MVMSpeshIns) (i : nat) : option bool :=
  if is_phi && (0 <? i)%nat then Some true
  else if negb is_phi then
    rw ← operand_rw cur_ins i;
    Some (rw =? MVM_operand_read_reg)
  else Some false.

Definition writes_operand (is_phi : bool) (cur_ins : MVMSpeshIns) (i : nat) : option bool :=
  if is_phi && (i =? 0)%nat then Some true
  else if negb is_phi then
    rw ← operand_rw cur_ins i;
    Some (rw =? MVM_operand_write_reg)
  else Some false.

Definition check_operand (g : MVMSpeshGraph) (cur_bb : MVMSpeshBB) (cur_ins : MVMSpeshIns)
    (is_phi : bool) (i : nat) : option (outcome unit) :=
  rd ← reads_operand is_phi cur_ins i;
  if rd : bool then
    o ← ins_operands cur_ins !! i;
    facts ← MVM_spesh_get_facts g o;
    let found := find_user cur_ins (users (usage facts)) in
    if negb found then Some (Oops (reader_diag g cur_bb cur_ins is_phi o) tt)
    else Some (Returns tt)
  else
    wr ← writes_operand is_phi cur_ins i;
    if wr : bool then
      o ← ins_operands cur_ins !! i;
      facts ← MVM_spesh_get_facts g o;
      if negb (writer facts =? ins_addr cur_ins)%N
      then Some (Oops (writer_diag g cur_bb cur_ins is_phi o) tt)
      else Some (Returns tt)
    else Some (Returns tt).

(** Running a loop body over the successive elements, up to the first one
    that does not return. *)
Fixpoint each {A : Type} (body : A -> option (outcome unit)) (l : list A)
    : option (outcome unit) :=
  match l with
  | [] => Some (Returns tt)
  | x :: rest =>
      match body x with
      | Some (Returns _) => each body rest
      | stop => stop
      end
  end.

(** [for (i = 0; i < cur_ins->info->num_operands; i++)]; both are
    [MVMuint8], so [i] does not wrap before the bound. *)
Definition check_ins (g : MVMSpeshGraph) (cur_bb : MVMSpeshBB) (cur_ins : MVMSpeshIns)
    : option (outcome unit) :=
  let is_phi := opcode (info cur_ins) =? MVM_SSA_PHI in
  each (check_operand g cur_bb cur_ins is_phi)
       (seq 0 (N.to_nat (num_operands (info cur_ins)))).

Definition check_bb (g : MVMSpeshGraph) (cur_bb : MVMSpeshBB) : option (outcome unit) :=
  each (check_ins g cur_bb) (first_ins cur_bb).

Definition MVM_spesh_usages_check (g : MVMSpeshGraph) : option (outcome unit) :=
  each (check_bb g) (entry g).

(** ** Chain fidelity (I2) *)

Definition is_phi_ins (cur_ins : MVMSpeshIns) : bool :=
  opcode (info cur_ins) =? MVM_SSA_PHI.

(** The operands an instruction reads, one per read-classified slot. *)
Definition reads_of (cur_ins : MVMSpeshIns) : list MVMSpeshOperand :=
  flat_map (fun i =>
      match reads_operand (is_phi_ins cur_ins) cur_ins i, ins_operands cur_ins !! i with
      | Some true, Some o => [o]
      | _, _ => []
      end)
    (seq 0 (N.to_nat (num_operands (info cur_ins)))).

Definition instructions (g : MVMSpeshGraph) : list MVMSpeshIns :=
  flat_map first_ins (entry g).

(** Read occurrences of the value [v] in the instruction at [a]. *)
Definition read_occurrences (g : MVMSpeshGraph) (a : N) (v : MVMSpeshOperand) : nat :=
  length (filter (fun o => o = v)
            (flat_map reads_of (filter (fun ins => ins_addr ins = a) (instructions g)))).

(** Entries of the chain of [v] that refer to the instruction at [a]. *)
Definition chain_entries (g : MVMSpeshGraph) (a : N) (v : MVMSpeshOperand) : nat :=
  match MVM_spesh_get_facts g v with
  | Some facts => entries_of a (users (usage facts))
  | None => O
  end.

(** I2: read occurrences and chain entries correspond one to one. *)
Definition chain_fidelity (g : MVMSpeshGraph) : Prop :=
  forall a v, read_occurrences g a v = chain_entries g a v.

(** Every access of the checker stays inside the arrays it indexes. *)
Definition addressable (g : MVMSpeshGraph) : Prop :=
  forall cur_bb cur_ins i,
    cur_bb ∈ entry g -> cur_ins ∈ first_ins cur_bb ->
    (i < N.to_nat (num_operands (info cur_ins)))%nat ->
    (is_phi_ins cur_ins = false -> is_Some (operands (info cur_ins) !! i)) /\
    (reads_operand (is_phi_ins cur_ins) cur_ins i = Some true \/
     writes_operand (is_phi_ins cur_ins) cur_ins i = Some true ->
     exists o, ins_operands cur_ins !! i = Some o /\ is_Some (MVM_spesh_get_facts g o)).

(** A slot of the instruction stream, and what the checker looks for there. *)
Definition slot_of (g : MVMSpeshGraph) (cur_bb : MVMSpeshBB) (cur_ins : MVMSpeshIns)
    (i : nat) (o : MVMSpeshOperand) (facts : MVMSpeshFacts) : Prop :=
  cur_bb ∈ entry g /\ cur_ins ∈ first_ins cur_bb /\
  (i < N.to_nat (num_operands (info cur_ins)))%nat /\
  ins_operands cur_ins !! i = Some o /\ MVM_spesh_get_facts g o = Some facts.

Definition missing_reader (cur_ins : MVMSpeshIns) (i : nat) (facts : MVMSpeshFacts) : Prop :=
  reads_operand (is_phi_ins cur_ins) cur_ins i = Some true /\
  Forall (fun e => user e <> ins_addr cur_ins) (users (usage facts)).

Definition wrong_writer (cur_ins : MVMSpeshIns) (i : nat) (facts : MVMSpeshFacts) : Prop :=
  reads_operand (is_phi_ins cur_ins) cur_ins i = Some false /\
  writes_operand (is_phi_ins cur_ins) cur_ins i = Some true /\
  writer facts <> ins_addr cur_ins.

(** A slot, or every slot of an instruction, is wrong in neither way. *)
Definition slot_sound (g : MVMSpeshGraph) (cur_ins : MVMSpeshIns) (i : nat) : Prop :=
  forall o facts,
    ins_operands cur_ins !! i = Some o -> MVM_spesh_get_facts g o = Some facts ->
    ~ missing_reader cur_ins i facts /\ ~ wrong_writer cur_ins i facts.

Definition ins_sound (g : MVMSpeshGraph) (cur_ins : MVMSpeshIns) : Prop :=
  forall i, (i < N.to_nat (num_operands (info cur_ins)))%nat -> slot_sound g cur_ins i.

(** ** The classification of the slots, read off the descriptors

    What the opcode and the descriptor table say about a slot, stated
    without the two conditions of the loop body: slot 0 of a PHI is its
    write and its other slots are reads; a slot of another instruction is a
    read, or a write, when the access bits of its descriptor are those of a
    register read, or of a register write. *)
Definition slot_reads (cur_ins : MVMSpeshIns) (i : nat) : Prop :=
  (opcode (info cur_ins) = MVM_SSA_PHI /\ (0 < i)%nat) \/
  (opcode (info cur_ins) <> MVM_SSA_PHI /\
   exists d, operands (info cur_ins) !! i = Some d /\
             Z.land d MVM_operand_rw_mask = MVM_operand_read_reg).

Definition slot_writes (cur_ins : MVMSpeshIns) (i : nat) : Prop :=
  (opcode (info cur_ins) = MVM_SSA_PHI /\ i = O) \/
  (opcode (info cur_ins) <> MVM_SSA_PHI /\
   exists d, operands (info cur_ins) !! i = Some d /\
             Z.land d MVM_operand_rw_mask = MVM_operand_write_reg).

(** The chain of [facts] has no entry for the instruction. *)
Definition unread_by (cur_ins : MVMSpeshIns) (facts : MVMSpeshFacts) : Prop :=
  forall e, e ∈ users (usage facts) -> user e <> ins_addr cur_ins.

(** The name a diagnostic gives to the instruction. *)
Definition named (cur_ins : MVMSpeshIns) : string :=
  if decide (opcode (info cur_ins) = MVM_SSA_PHI) then "PHI" else name (info cur_ins).

(** The operand counts of the instruction stream fit the [MVMuint8] index of
    the loop over the slots. *)
Definition operand_counts_fit (g : MVMSpeshGraph) : Prop :=
  forall cur_bb cur_ins,
    cur_bb ∈ entry g -> cur_ins ∈ first_ins cur_bb ->
    (num_operands (info cur_ins) < 256)%N.

(** The descriptor of every slot of an ordinary instruction, and the operand
    and the Facts entry of every slot that is a read or a write, lie inside
    their tables. *)
Definition slots_in_bounds (g : MVMSpeshGraph) : Prop :=
  forall cur_bb cur_ins i,
    cur_bb ∈ entry g -> cur_ins ∈ first_ins cur_bb ->
    (i < N.to_nat (num_operands (info cur_ins)))%nat ->
    (opcode (info cur_ins) <> MVM_SSA_PHI -> is_Some (operands (info cur_ins) !! i)) /\
    (slot_reads cur_ins i \/ slot_writes cur_ins i ->
     exists o, ins_operands cur_ins !! i = Some o /\ is_Some (MVM_spesh_get_facts g o)).

End Checker.

(** ** A small graph

    The scenario of the specification: [I1] writes [V1]; [I2] reads [V1] in
    two operand slots and writes [V2].  The second operand of [I1] is a
    literal, whose bits are no register.  The constants are fixed to sample
    values here, and the dump to a fixed text. *)
Module Scenario.

Definition SSA_PHI : Z := 32767.
Definition operand_rw_mask : Z := 7.
Definition operand_read_reg : Z := 1.
Definition operand_write_reg : Z := 2.
Definition dump (g : MVMSpeshGraph) : string := "<dump>".

Definition V1 : MVMSpeshOperand := {| reg_orig := 0; reg_i := 0 |}.
Definition V2 : MVMSpeshOperand := {| reg_orig := 1; reg_i := 0 |}.

Definition I1 : MVMSpeshIns :=
  {| ins_addr := 16;
     info := {| opcode := 1; name := "const_i64"; num_operands := 2; operands := [2; 0] |};
     ins_operands := [V1; {| reg_orig := 4660; reg_i := 22136 |}] |}.

Definition I2 : MVMSpeshIns :=
  {| ins_addr := 32;
     info := {| opcode := 2; name := "add_i"; num_operands := 3; operands := [2; 1; 1] |};
     ins_operands := [V2; V1; V1] |}.

(** Another instruction with the opcode of [I2]. *)
Definition I3 : MVMSpeshIns :=
  {| ins_addr := 48; info := info I2; ins_operands := [V1; V2; V2] |}.

Definition fresh (w : N) : MVMSpeshFacts :=
  {| writer := w;
     usage := {| users := []; deopt_required := false; handler_required := false |} |}.

Definition stream : list MVMSpeshBB := [{| idx := 0; first_ins := [I1; I2] |}].

(** The writers are set and no usage is registered yet. *)
Definition unregistered : MVMSpeshGraph :=
  {| entry := stream; facts := [[fresh 16]; [fresh 32]] |}.

(** After graph construction: both reads of [V1] by [I2] are registered. *)
Definition built : MVMSpeshGraph :=
  {| entry := stream;
     facts := [[set_users [{| user := 32 |}; {| user := 32 |}] (fresh 16)]; [fresh 32]] |}.

(** One of the two entries has been taken out of the chain of [V1] while the
    instruction stream stayed as it was. *)
Definition one_entry_short : MVMSpeshGraph :=
  {| entry := stream; facts := [[set_users [{| user := 32 |}] (fresh 16)]; [fresh 32]] |}.

(** [built] with [V2] marked for deopt, and then with the chain of [V1]
    emptied. *)
Definition marked : MVMSpeshGraph :=
  {| entry := stream;
     facts := [[set_users [{| user := 32 |}; {| user := 32 |}] (fresh 16)];
               [set_deopt_required true (fresh 32)]] |}.

Definition marked_cleared : MVMSpeshGraph :=
  {| entry := stream; facts := [[fresh 16]; [set_deopt_required true (fresh 32)]] |}.

(** An entry for [I1] sits in the chain of [V2], which [I1] does not read. *)
Definition dangling_entry : MVMSpeshGraph :=
  {| entry := stream;
     facts := [[set_users [{| user := 32 |}; {| user := 32 |}] (fresh 16)];
               [set_users [{| user := 16 |}] (fresh 32)]] |}.

(** [V2] merged with [V1] into a third value by a PHI, whose descriptor
    table is empty. *)
Definition V3 : MVMSpeshOperand := {| reg_orig := 1; reg_i := 1 |}.

Definition P : MVMSpeshIns :=
  {| ins_addr := 64;
     info := {| opcode := SSA_PHI; name := "phi"; num_operands := 3; operands := [] |};
     ins_operands := [V3; V2; V1] |}.

Definition merged : MVMSpeshGraph :=
  {| entry := stream ++ [{| idx := 1; first_ins := [P] |}];
     facts := [[set_users [{| user := 64 |}; {| user := 32 |}; {| user := 32 |}] (fresh 16)];
               [set_users [{| user := 64 |}] (fresh 32); fresh 64]] |}.

(** The writer of [V3] is not the PHI. *)
Definition merged_by_other : MVMSpeshGraph :=
  {| entry := entry merged;
     facts := [[set_users [{| user := 64 |}; {| user := 32 |}; {| user := 32 |}] (fresh 16)];
               [set_users [{| user := 64 |}] (fresh 32); fresh 32]] |}.

(** The same shape with typed descriptors, whose access bits lie under the
    mask ([34] is a register write and [33] a register read of one kind of
    register, [32] a literal), followed by the block of the PHI. *)
Definition J1 : MVMSpeshIns :=
  {| ins_addr := 16;
     info := {| opcode := 1; name := "const_i64"; num_operands := 2; operands := [34; 32] |};
     ins_operands := [V1; {| reg_orig := 4660; reg_i := 22136 |}] |}.

Definition J2 : MVMSpeshIns :=
  {| ins_addr := 32;
     info := {| opcode := 2; name := "add_i"; num_operands := 3; operands := [34; 33; 33] |};
     ins_operands := [V2; V1; V1] |}.

Definition typed_stream : list MVMSpeshBB :=
  [{| idx := 0; first_ins := [J1; J2] |}; {| idx := 1; first_ins := [P] |}].

(** A graph over [typed_stream] from the Facts entries of [V1], [V2] and
    [V3]. *)
Definition typed_graph (f1 f2 f3 : MVMSpeshFacts) : MVMSpeshGraph :=
  {| entry := typed_stream; facts := [[f1]; [f2; f3]] |}.

Definition typed : MVMSpeshGraph :=
  typed_graph (set_users [{| user := 64 |}; {| user := 32 |}; {| user := 32 |}] (fresh 16))
              (set_users [{| user := 64 |}] (fresh 32)) (fresh 64).

(** [V2] has [J1] as its writer, though [J2] writes it. *)
Definition typed_wrong_writer : MVMSpeshGraph :=
  typed_graph (set_users [{| user := 64 |}; {| user := 32 |}; {| user := 32 |}] (fresh 16))
              (set_users [{| user := 64 |}] (fresh 16)) (fresh 64).

(** [V3] has [J2] as its writer, though the PHI writes it. *)
Definition typed_wrong_phi : MVMSpeshGraph :=
  typed_graph (set_users [{| user := 64 |}; {| user := 32 |}; {| user := 32 |}] (fresh 16))
              (set_users [{| user := 64 |}] (fresh 32)) (fresh 32).

(** The chain of [V2] has no entry for the PHI, which reads it. *)
Definition typed_unread : MVMSpeshGraph :=
  typed_graph (set_users [{| user := 64 |}; {| user := 32 |}; {| user := 32 |}] (fresh 16))
              (fresh 32) (fresh 64).

End Scenario.

Abbreviation scenario_check :=
  (MVM_spesh_usages_check Scenario.SSA_PHI Scenario.operand_rw_mask
     Scenario.operand_read_reg Scenario.operand_write_reg Scenario.dump).

Abbreviation scenario_addressable :=
  (addressable Scenario.SSA_PHI Scenario.operand_rw_mask
     Scenario.operand_read_reg Scenario.operand_write_reg).

(** ** Notions used to relate two graphs *)

(** The value a call works on. *)
Definition call_target (c : usage_call) : MVMSpeshOperand :=
  match c with
  | Call_add used _ | Call_delete used _ | Call_add_for_deopt used
  | Call_add_for_handler used => used
  | Call_is_used check | Call_is_used_by_deopt check | Call_is_used_by_handler check
  | Call_used_once check | Call_count check => check
  end.

(** [g'] has the instruction stream of [g], and every Facts entry of [g] has
    in [g'] an entry with the same writer whose chain holds an entry for
    every instruction that the chain in [g] holds one for. *)
Definition chains_cover (g g' : MVMSpeshGraph) : Prop :=
  entry g' = entry g /\
  forall o facts, MVM_spesh_get_facts g o = Some facts ->
    exists facts',
      MVM_spesh_get_facts g' o = Some facts' /\ writer facts' = writer facts /\
      forall a, (0 < entries_of a (users (usage facts)))%nat ->
                (0 < entries_of a (users (usage facts')))%nat.

Abbreviation scenario_in_bounds :=
  (slots_in_bounds Scenario.SSA_PHI Scenario.operand_rw_mask
     Scenario.operand_read_reg Scenario.operand_write_reg).

(** * Properties *)

(** ** The facts table *)

Lemma get_facts_put_same g u x :
  is_Some (MVM_spesh_get_facts g u) ->
  MVM_spesh_get_facts (put_facts g u x) u = Some x.
Proof.
  unfold MVM_spesh_get_facts, put_facts; simpl.
  intros [f Hf]. rewrite list_lookup_alter_eq.
  destruct (facts g !! N.to_nat (reg_orig u)) as [row|] eqn:Hrow; simpl in *; [|done].
  apply list_lookup_insert_eq. by eapply lookup_lt_Some.
Qed.

Lemma get_facts_put_other g u v x :
  u <> v -> MVM_spesh_get_facts (put_facts g u x) v = MVM_spesh_get_facts g v.
Proof.
  unfold MVM_spesh_get_facts, put_facts; simpl. intros Hne.
  destruct (decide (N.to_nat (reg_orig u) = N.to_nat (reg_orig v))) as [Ho|Ho].
  - rewrite <- Ho, list_lookup_alter_eq.
    destruct (facts g !! N.to_nat (reg_orig u)) as [row|]; simpl; [|done].
    apply list_lookup_insert_ne. intros Hi. apply Hne.
    destruct u, v; simpl in *. f_equal; lia.
  - by rewrite list_lookup_alter_ne.
Qed.

Lemma put_facts_same g u f :
  MVM_spesh_get_facts g u = Some f -> put_facts g u f = g.
Proof.
  unfold MVM_spesh_get_facts, put_facts. destruct g as [bbs tbl]; simpl.
  intros Hf. f_equal.
  apply list_eq. intros j.
  destruct (decide (N.to_nat (reg_orig u) = j)) as [<-|Hj].
  - rewrite list_lookup_alter_eq.
    destruct (tbl !! N.to_nat (reg_orig u)) as [row|]; simpl in *; [|done].
    by rewrite list_insert_id.
  - by rewrite list_lookup_alter_ne.
Qed.

Lemma put_facts_put g u x y :
  put_facts (put_facts g u x) u y = put_facts g u y.
Proof.
  unfold put_facts; simpl. f_equal.
  rewrite list_alter_alter_eq. apply list_alter_ext; [|done].
  intros row _. simpl. apply list_insert_insert_eq.
Qed.

Lemma set_users_same f : set_users (users (usage f)) f = f.
Proof. by destruct f as [w [l d h]]. Qed.

(** ** Removal *)

Lemma usages_delete_loop_missing facts by_ins cur :
  Forall (fun e => user e <> ins_addr by_ins) cur ->
  forall prev, usages_delete_loop facts by_ins prev cur = Oops (delete_diag by_ins) facts.
Proof.
  induction 1 as [|c next Hc _ IH]; intros prev; simpl; [done|].
  apply N.eqb_neq in Hc. rewrite Hc. apply IH.
Qed.

Lemma usages_delete_loop_found facts by_ins skipped c next :
  Forall (fun e => user e <> ins_addr by_ins) skipped ->
  user c = ins_addr by_ins ->
  forall prev,
    usages_delete_loop facts by_ins prev (skipped ++ c :: next)
    = Returns (set_users (prev ++ skipped ++ next) facts).
Proof.
  intros Hs Hc. induction Hs as [|x skipped Hx _ IH]; intros prev; simpl.
  - apply N.eqb_eq in Hc. rewrite Hc. by destruct prev.
  - apply N.eqb_neq in Hx. rewrite Hx, IH. by rewrite <- app_assoc.
Qed.

(** A chain either holds no entry for the instruction, or splits at the
    first one. *)
Lemma chain_first_entry (a : N) (chain : list MVMSpeshUseChainEntry) :
  Forall (fun e => user e <> a) chain \/
  exists skipped c next,
    chain = skipped ++ c :: next /\ user c = a /\ Forall (fun e => user e <> a) skipped.
Proof.
  induction chain as [|x chain IH]; [by left|].
  destruct (decide (user x = a)) as [Hx|Hx].
  - right. by exists [], x, chain.
  - destruct IH as [IH|(skipped & c & next & -> & Hc & Hs)].
    + left. by constructor.
    + right. exists (x :: skipped), c, next. repeat split; [done|by constructor].
Qed.

Lemma entries_of_none a chain :
  Forall (fun e => user e <> a) chain <-> entries_of a chain = O.
Proof.
  unfold entries_of. induction chain as [|x chain IH]; [done|].
  rewrite filter_cons, Forall_cons. destruct (decide (user x = a)); simpl.
  - split; [intros [? _]; done|done].
  - rewrite IH. split; [by intros [_ ?]|done].
Qed.

Lemma entries_of_split a skipped c next :
  Forall (fun e => user e <> a) skipped -> user c = a ->
  entries_of a (skipped ++ c :: next) = S (entries_of a (skipped ++ next)).
Proof.
  intros Hs Hc. unfold entries_of. rewrite !filter_app, !length_app.
  rewrite filter_cons_True by done. simpl. lia.
Qed.

Lemma others_split a skipped c next :
  user c = a ->
  filter (fun e => user e <> a) (skipped ++ c :: next)
  = filter (fun e => user e <> a) (skipped ++ next).
Proof.
  intros Hc. rewrite !filter_app. f_equal. apply filter_cons_False. by intros [].
Qed.

Lemma others_all a chain :
  Forall (fun e => user e <> a) chain -> filter (fun e => user e <> a) chain = chain.
Proof.
  induction 1 as [|x chain Hx _ IH]; [done|].
  by rewrite filter_cons_True, IH.
Qed.

Lemma delete_times_some by_ins k :
  forall facts,
    (k <= entries_of (ins_addr by_ins) (users (usage facts)))%nat ->
    exists chain,
      delete_times k facts by_ins = Returns (set_users chain facts) /\
      entries_of (ins_addr by_ins) chain
      = (entries_of (ins_addr by_ins) (users (usage facts)) - k)%nat /\
      filter (fun e => user e <> ins_addr by_ins) chain
      = filter (fun e => user e <> ins_addr by_ins) (users (usage facts)).
Proof.
  induction k as [|k IH]; intros facts Hk; simpl.
  - exists (users (usage facts)). rewrite set_users_same. split; [done|]. split; [lia|done].
  - destruct (chain_first_entry (ins_addr by_ins) (users (usage facts)))
      as [Hno|(skipped & c & next & Heq & Hc & Hs)].
    + apply entries_of_none in Hno. lia.
    + unfold MVM_spesh_usages_delete. rewrite Heq.
      rewrite (usages_delete_loop_found facts by_ins skipped c next Hs Hc []). simpl.
      rewrite Heq, (entries_of_split _ _ _ _ Hs Hc) in Hk.
      destruct (IH (set_users (skipped ++ next) facts)) as (chain & Hrun & Hn & Hrest);
        [simpl; lia|].
      exists chain. split; [exact Hrun|]. simpl in Hn, Hrest.
      rewrite (entries_of_split _ _ _ _ Hs Hc), (others_split _ _ _ _ Hc). split; [lia|done].
Qed.

Lemma delete_times_more by_ins k :
  forall facts,
    (entries_of (ins_addr by_ins) (users (usage facts)) < k)%nat ->
    delete_times k facts by_ins
    = Oops (delete_diag by_ins)
        (set_users (filter (fun e => user e <> ins_addr by_ins) (users (usage facts))) facts).
Proof.
  induction k as [|k IH]; intros facts Hk; [lia|]. simpl.
  destruct (chain_first_entry (ins_addr by_ins) (users (usage facts)))
    as [Hno|(skipped & c & next & Heq & Hc & Hs)].
  - unfold MVM_spesh_usages_delete.
    rewrite (usages_delete_loop_missing _ _ _ Hno), (others_all _ _ Hno).
    by rewrite set_users_same.
  - unfold MVM_spesh_usages_delete. rewrite Heq.
    rewrite (usages_delete_loop_found facts by_ins skipped c next Hs Hc []). simpl.
    rewrite Heq, (entries_of_split _ _ _ _ Hs Hc) in Hk.
    rewrite IH by (simpl; lia). simpl. by rewrite (others_split _ _ _ _ Hc).
Qed.

(** C3: [MVM_spesh_usages_delete] unlinks the first entry for the
    instruction and nothing else, and reaches [MVM_oops] exactly when the
    chain holds no entry for it.  With [n] entries for the instruction in the
    chain, each of the first [n] calls returns and removes one of them, the
    others staying in place and in order, and every further call is
    fatal. *)
Theorem usages_delete_first_match (facts : MVMSpeshFacts) (by_ins : MVMSpeshIns) :
  (diagnostic (MVM_spesh_usages_delete facts by_ins) <> None <->
   Forall (fun e => user e <> ins_addr by_ins) (users (usage facts))) /\
  (forall facts', MVM_spesh_usages_delete facts by_ins = Returns facts' ->
     exists skipped c next,
       users (usage facts) = skipped ++ c :: next /\
       user c = ins_addr by_ins /\
       Forall (fun e => user e <> ins_addr by_ins) skipped /\
       facts' = set_users (skipped ++ next) facts) /\
  (forall k, (k <= entries_of (ins_addr by_ins) (users (usage facts)))%nat ->
     exists chain,
       delete_times k facts by_ins = Returns (set_users chain facts) /\
       entries_of (ins_addr by_ins) chain
       = (entries_of (ins_addr by_ins) (users (usage facts)) - k)%nat /\
       filter (fun e => user e <> ins_addr by_ins) chain
       = filter (fun e => user e <> ins_addr by_ins) (users (usage facts))) /\
  (forall k, (entries_of (ins_addr by_ins) (users (usage facts)) < k)%nat ->
     diagnostic (delete_times k facts by_ins) <> None).
Proof.
  repeat split.
  - intros Hd. destruct (chain_first_entry (ins_addr by_ins) (users (usage facts)))
      as [Hno|(skipped & c & next & Heq & Hc & Hs)]; [done|].
    exfalso. apply Hd. unfold MVM_spesh_usages_delete. rewrite Heq.
    by rewrite (usages_delete_loop_found facts by_ins skipped c next Hs Hc []).
  - intros Hno. unfold MVM_spesh_usages_delete.
    by rewrite (usages_delete_loop_missing _ _ _ Hno).
  - intros facts' Hret.
    destruct (chain_first_entry (ins_addr by_ins) (users (usage facts)))
      as [Hno|(skipped & c & next & Heq & Hc & Hs)].
    + unfold MVM_spesh_usages_delete in Hret.
      by rewrite (usages_delete_loop_missing _ _ _ Hno) in Hret.
    + exists skipped, c, next. repeat split; try done.
      unfold MVM_spesh_usages_delete in Hret. rewrite Heq in Hret.
      rewrite (usages_delete_loop_found facts by_ins skipped c next Hs Hc []) in Hret.
      simpl in Hret. congruence.
  - intros k Hk. by apply delete_times_some.
  - intros k Hk. by rewrite delete_times_more.
Qed.

Lemma usages_delete_first_match_witness :
  (exists chain,
     delete_times 2 (set_users [{| user := 32 |}; {| user := 32 |}] (Scenario.fresh 16))
       Scenario.I2
     = Returns (set_users chain (Scenario.fresh 16)) /\
     entries_of 32 chain = O) /\
  diagnostic
    (delete_times 3 (set_users [{| user := 32 |}; {| user := 32 |}] (Scenario.fresh 16))
       Scenario.I2) <> None.
Proof.
  destruct (usages_delete_first_match
              (set_users [{| user := 32 |}; {| user := 32 |}] (Scenario.fresh 16)) Scenario.I2)
    as (_ & _ & Hsome & Hmore).
  split.
  - destruct (Hsome 2%nat) as (chain & Hrun & Hleft & _); [vm_compute; lia|].
    exists chain. split; [exact Hrun|exact Hleft].
  - apply Hmore. vm_compute. lia.
Defined.

(** ** Queries *)

(** C1: [MVM_spesh_usages_is_used] answers true exactly when the chain is
    not empty or one of the two marks is set; on an entry with an empty chain
    and no mark it answers false. *)
Theorem usages_is_used_iff (g : MVMSpeshGraph) (check : MVMSpeshOperand) (facts : MVMSpeshFacts) :
  MVM_spesh_get_facts g check = Some facts ->
  exists r,
    MVM_spesh_usages_is_used g check = Some r /\
    (r <> 0 <-> users (usage facts) <> [] \/ deopt_required (usage facts) = true
                \/ handler_required (usage facts) = true) /\
    (users (usage facts) = [] -> deopt_required (usage facts) = false ->
     handler_required (usage facts) = false -> r = 0).
Proof.
  intros Hf. unfold MVM_spesh_usages_is_used. rewrite Hf. simpl.
  eexists. split; [reflexivity|].
  destruct facts as [w [l d h]]; simpl.
  destruct d, h, l; simpl; split; try done; try (split; [auto|done]).
  split; [done|]. by intros [|[|]].
Qed.

Lemma usages_is_used_iff_witness :
  MVM_spesh_get_facts Scenario.built Scenario.V1
  = Some (set_users [{| user := 32 |}; {| user := 32 |}] (Scenario.fresh 16)) /\
  exists r, MVM_spesh_usages_is_used Scenario.built Scenario.V1 = Some r /\ r <> 0.
Proof.
  split; [reflexivity|].
  destruct (usages_is_used_iff Scenario.built Scenario.V1 _ eq_refl) as (r & Hr & Hiff & _).
  exists r. split; [exact Hr|]. apply Hiff. by left.
Defined.

(** C2: [MVM_spesh_usages_used_once] answers true exactly when neither mark
    is set and the chain has one entry; once the value is marked for deopt
    the answer is false also when the count of usages is 1. *)
Theorem usages_used_once_iff (g : MVMSpeshGraph) (check : MVMSpeshOperand) (facts : MVMSpeshFacts) :
  MVM_spesh_get_facts g check = Some facts ->
  (exists r,
     MVM_spesh_usages_used_once g check = Some r /\
     (r <> 0 <-> deopt_required (usage facts) = false /\ handler_required (usage facts) = false
                 /\ length (users (usage facts)) = 1%nat)) /\
  (exists g',
     MVM_spesh_usages_add_for_deopt_by_reg g check = Some g' /\
     (MVM_spesh_usages_count g' check = Some 1 -> MVM_spesh_usages_used_once g' check = Some 0)).
Proof.
  intros Hf. split.
  - unfold MVM_spesh_usages_used_once. rewrite Hf. simpl.
    eexists. split; [reflexivity|].
    destruct facts as [w [l d h]]; simpl.
    destruct d, h, l as [|e [|e' l]]; simpl; split; try done;
      intros (Hd & Hh & Hl); done.
  - unfold MVM_spesh_usages_add_for_deopt_by_reg. rewrite Hf. simpl.
    eexists. split; [reflexivity|]. intros _.
    unfold MVM_spesh_usages_used_once. by rewrite get_facts_put_same.
Qed.

Lemma usages_used_once_iff_witness :
  MVM_spesh_get_facts Scenario.one_entry_short Scenario.V1
  = Some (set_users [{| user := 32 |}] (Scenario.fresh 16)) /\
  exists g',
    MVM_spesh_usages_add_for_deopt_by_reg Scenario.one_entry_short Scenario.V1 = Some g' /\
    MVM_spesh_usages_count g' Scenario.V1 = Some 1 /\
    MVM_spesh_usages_used_once g' Scenario.V1 = Some 0.
Proof.
  split; [reflexivity|].
  destruct (usages_used_once_iff Scenario.one_entry_short Scenario.V1 _ eq_refl)
    as (_ & g' & Hg' & Honce).
  exists g'. split; [exact Hg'|].
  assert (Hc : MVM_spesh_usages_count g' Scenario.V1 = Some 1).
  { vm_compute in Hg'. injection Hg' as <-. reflexivity. }
  split; [exact Hc|exact (Honce Hc)].
Defined.

(** ** Registration and the count of usages *)

Lemma usages_count_loop_length chain :
  forall count, 0 <= count < 2 ^ 32 ->
    usages_count_loop count chain = (count + Z.of_nat (length chain)) mod 2 ^ 32.
Proof.
  induction chain as [|e chain IH]; intros count Hc; simpl usages_count_loop.
  - simpl. rewrite Z.add_0_r, Z.mod_small; lia.
  - rewrite IH by (apply Z.mod_pos_bound; lia).
    rewrite Zplus_mod_idemp_l. f_equal. rewrite length_cons. lia.
Qed.

Lemma usages_count_length g check facts :
  MVM_spesh_get_facts g check = Some facts ->
  Z.of_nat (length (users (usage facts))) < 2 ^ 32 ->
  MVM_spesh_usages_count g check = Some (Z.of_nat (length (users (usage facts)))).
Proof.
  intros Hf Hlen. unfold MVM_spesh_usages_count. rewrite Hf. simpl.
  rewrite usages_count_loop_length by lia. rewrite Z.add_0_l, Z.mod_small; [done|lia].
Qed.

(** C7: [MVM_spesh_usages_add] puts one new entry in front of the chain
    whatever the chain holds, so the count of usages, which is the length of
    the chain and ignores the two marks, grows by one with every call; two
    registrations on an empty chain give a count of 2, for two instructions
    or for twice the same one.  The count is an [MVMuint32]: the chain is
    taken to have less than [2^32 - 1] entries. *)
Theorem usages_add_counts (g : MVMSpeshGraph) (v : MVMSpeshOperand) (facts : MVMSpeshFacts)
    (by_ins : MVMSpeshIns) :
  MVM_spesh_get_facts g v = Some facts ->
  Z.of_nat (length (users (usage facts))) < 2 ^ 32 - 1 ->
  users (usage (MVM_spesh_usages_add facts by_ins))
  = {| user := ins_addr by_ins |} :: users (usage facts) /\
  MVM_spesh_usages_count g v = Some (Z.of_nat (length (users (usage facts)))) /\
  (forall d h,
     MVM_spesh_usages_count
       (put_facts g v (set_deopt_required d (set_handler_required h facts))) v
     = MVM_spesh_usages_count g v) /\
  exists g1,
    MVM_spesh_usages_add_by_reg g v by_ins = Some g1 /\
    MVM_spesh_usages_count g1 v = Some (Z.of_nat (length (users (usage facts))) + 1) /\
    (users (usage facts) = [] ->
     forall by_ins2, exists g2,
       MVM_spesh_usages_add_by_reg g1 v by_ins2 = Some g2 /\
       MVM_spesh_usages_count g2 v = Some 2).
Proof.
  intros Hf Hlen. split; [done|].
  split; [apply usages_count_length; [done|lia]|].
  split.
  { intros d h. unfold MVM_spesh_usages_count.
    rewrite get_facts_put_same by (by rewrite Hf). by rewrite Hf. }
  unfold MVM_spesh_usages_add_by_reg. rewrite Hf. simpl.
  eexists. split; [reflexivity|]. split.
  - erewrite usages_count_length; [|by apply get_facts_put_same; rewrite Hf|].
    + simpl. f_equal. lia.
    + simpl. lia.
  - intros Hnil by_ins2. rewrite get_facts_put_same by (by rewrite Hf). simpl.
    eexists. split; [reflexivity|].
    unfold MVM_spesh_usages_count. rewrite get_facts_put_same.
    + simpl. by rewrite Hnil.
    + rewrite get_facts_put_same; [done|by rewrite Hf].
Qed.

Lemma usages_add_counts_witness :
  MVM_spesh_get_facts Scenario.unregistered Scenario.V1 = Some (Scenario.fresh 16) /\
  Z.of_nat (length (users (usage (Scenario.fresh 16)))) < 2 ^ 32 - 1 /\
  exists g1,
    MVM_spesh_usages_add_by_reg Scenario.unregistered Scenario.V1 Scenario.I2 = Some g1 /\
    MVM_spesh_usages_count g1 Scenario.V1 = Some 1 /\
    exists g2,
      MVM_spesh_usages_add_by_reg g1 Scenario.V1 Scenario.I2 = Some g2 /\
      MVM_spesh_usages_count g2 Scenario.V1 = Some 2.
Proof.
  split; [reflexivity|]. split; [simpl; lia|].
  destruct (usages_add_counts Scenario.unregistered Scenario.V1 (Scenario.fresh 16)
              Scenario.I2 eq_refl ltac:(simpl; lia))
    as (_ & _ & _ & g1 & Hg1 & Hc1 & Htwo).
  exists g1. split; [exact Hg1|]. split; [exact Hc1|].
  exact (Htwo eq_refl Scenario.I2).
Defined.

(** ** Registration followed by removal *)

(** C6: a call of [MVM_spesh_usages_delete] for the instruction that
    [MVM_spesh_usages_add] has just registered gives back the entry, and the
    graph, as they were before the registration; when the chain was empty
    and no mark is set, the value is used after the registration and is not
    used after the removal. *)
Theorem usages_add_then_delete (g : MVMSpeshGraph) (v : MVMSpeshOperand)
    (facts : MVMSpeshFacts) (by_ins : MVMSpeshIns) :
  MVM_spesh_get_facts g v = Some facts ->
  MVM_spesh_usages_delete (MVM_spesh_usages_add facts by_ins) by_ins = Returns facts /\
  exists g1,
    MVM_spesh_usages_add_by_reg g v by_ins = Some g1 /\
    MVM_spesh_usages_delete_by_reg g1 v by_ins = Some (Returns g) /\
    (users (usage facts) = [] -> deopt_required (usage facts) = false ->
     handler_required (usage facts) = false ->
     MVM_spesh_usages_is_used g1 v = Some 1 /\ MVM_spesh_usages_is_used g v = Some 0).
Proof.
  intros Hf.
  assert (Hdel : MVM_spesh_usages_delete (MVM_spesh_usages_add facts by_ins) by_ins
                 = Returns facts).
  { unfold MVM_spesh_usages_delete, MVM_spesh_usages_add. simpl.
    rewrite N.eqb_refl. by destruct facts as [w [l d h]]. }
  split; [exact Hdel|].
  unfold MVM_spesh_usages_add_by_reg. rewrite Hf. simpl.
  eexists. split; [reflexivity|]. split.
  - unfold MVM_spesh_usages_delete_by_reg.
    rewrite get_facts_put_same by (by rewrite Hf). simpl.
    rewrite Hdel, put_facts_put. by rewrite put_facts_same.
  - intros Hnil Hd Hh. unfold MVM_spesh_usages_is_used.
    rewrite get_facts_put_same by (by rewrite Hf). rewrite Hf. simpl.
    by rewrite Hnil, Hd, Hh.
Qed.

Lemma usages_add_then_delete_witness :
  MVM_spesh_get_facts Scenario.unregistered Scenario.V2 = Some (Scenario.fresh 32) /\
  exists g1,
    MVM_spesh_usages_add_by_reg Scenario.unregistered Scenario.V2 Scenario.I3 = Some g1 /\
    MVM_spesh_usages_delete_by_reg g1 Scenario.V2 Scenario.I3
    = Some (Returns Scenario.unregistered) /\
    MVM_spesh_usages_is_used g1 Scenario.V2 = Some 1 /\
    MVM_spesh_usages_is_used Scenario.unregistered Scenario.V2 = Some 0.
Proof.
  split; [reflexivity|].
  destruct (usages_add_then_delete Scenario.unregistered Scenario.V2 (Scenario.fresh 32)
              Scenario.I3 eq_refl) as (_ & g1 & Hadd & Hdel & Hused).
  exists g1. split; [exact Hadd|]. split; [exact Hdel|].
  exact (Hused eq_refl eq_refl eq_refl).
Defined.

(** ** The failure of a removal *)

(** C10: when the chain holds no entry for the instruction,
    [MVM_spesh_usages_delete] reaches [MVM_oops] with the Facts entry, and
    the whole graph, as they were at the call: chain, marks and writer. *)
Theorem usages_delete_failure_keeps_state (g : MVMSpeshGraph) (used : MVMSpeshOperand)
    (facts : MVMSpeshFacts) (by_ins : MVMSpeshIns) :
  MVM_spesh_get_facts g used = Some facts ->
  Forall (fun e => user e <> ins_addr by_ins) (users (usage facts)) ->
  exists d,
    MVM_spesh_usages_delete facts by_ins = Oops d facts /\
    MVM_spesh_usages_delete_by_reg g used by_ins = Some (Oops d g).
Proof.
  intros Hf Hno. exists (delete_diag by_ins).
  assert (Hdel : MVM_spesh_usages_delete facts by_ins = Oops (delete_diag by_ins) facts).
  { unfold MVM_spesh_usages_delete. by apply usages_delete_loop_missing. }
  split; [exact Hdel|].
  unfold MVM_spesh_usages_delete_by_reg. rewrite Hf. simpl.
  by rewrite Hdel, put_facts_same.
Qed.

Lemma usages_delete_failure_keeps_state_witness :
  MVM_spesh_get_facts Scenario.built Scenario.V1
  = Some (set_users [{| user := 32 |}; {| user := 32 |}] (Scenario.fresh 16)) /\
  Forall (fun e => user e <> ins_addr Scenario.I1) [{| user := 32 |}; {| user := 32 |}] /\
  exists d,
    MVM_spesh_usages_delete_by_reg Scenario.built Scenario.V1 Scenario.I1
    = Some (Oops d Scenario.built).
Proof.
  assert (Hno : Forall (fun e => user e <> ins_addr Scenario.I1)
                  [{| user := 32 |}; {| user := 32 |}]).
  { repeat constructor; simpl; lia. }
  split; [reflexivity|]. split; [exact Hno|].
  destruct (usages_delete_failure_keeps_state Scenario.built Scenario.V1 _ Scenario.I1
              eq_refl Hno) as (d & _ & Hd).
  exists d. exact Hd.
Defined.

(** C9, as the code has it: the diagnostic of a failed removal is the fixed
    text around the name of the opcode of the instruction, [by->info->name];
    neither the value nor a dump of the graph is part of it. *)
Theorem usages_delete_diag_names_opcode (facts : MVMSpeshFacts) (by_ins : MVMSpeshIns)
    (d : string) (facts' : MVMSpeshFacts) :
  MVM_spesh_usages_delete facts by_ins = Oops d facts' ->
  d = "Spesh: instruction " +:+ name (info by_ins) +:+ " missing from define-use chain".
Proof.
  intros Hdel.
  destruct (chain_first_entry (ins_addr by_ins) (users (usage facts)))
    as [Hno|(skipped & c & next & Heq & Hc & Hs)]; unfold MVM_spesh_usages_delete in Hdel.
  - rewrite (usages_delete_loop_missing _ _ _ Hno) in Hdel. by injection Hdel as <- _.
  - rewrite Heq, (usages_delete_loop_found facts by_ins skipped c next Hs Hc []) in Hdel.
    done.
Qed.

Lemma usages_delete_diag_names_opcode_witness :
  MVM_spesh_usages_delete (Scenario.fresh 32) Scenario.I2
  = Oops "Spesh: instruction add_i missing from define-use chain" (Scenario.fresh 32) /\
  "Spesh: instruction add_i missing from define-use chain"
  = "Spesh: instruction " +:+ name (info Scenario.I2) +:+ " missing from define-use chain".
Proof.
  split; [reflexivity|].
  exact (usages_delete_diag_names_opcode (Scenario.fresh 32) Scenario.I2 _ _ eq_refl).
Defined.

(** C9, as the specification states it, fails: removing [I1], which reads nothing, from
    the chain of [V1] and from the chain of [V2] ends in the same
    diagnostic. *)
Lemma usages_delete_diag_omits_value : ~ delete_diag_tells_value.
Proof.
  intros Htells.
  assert (Heq : Scenario.V1 = Scenario.V2).
  { apply (Htells Scenario.built Scenario.V1 Scenario.V2 Scenario.I1
             "Spesh: instruction const_i64 missing from define-use chain"
             Scenario.built Scenario.built); reflexivity. }
  discriminate Heq.
Qed.

(** ** The marks *)

Lemma usages_delete_final facts by_ins :
  exists chain, final (MVM_spesh_usages_delete facts by_ins) = set_users chain facts.
Proof.
  unfold MVM_spesh_usages_delete.
  destruct (chain_first_entry (ins_addr by_ins) (users (usage facts)))
    as [Hno|(skipped & c & next & Heq & Hc & Hs)].
  - rewrite (usages_delete_loop_missing _ _ _ Hno). simpl.
    exists (users (usage facts)). by rewrite set_users_same.
  - rewrite Heq, (usages_delete_loop_found facts by_ins skipped c next Hs Hc []).
    by eexists.
Qed.

Lemma marks_kept_refl facts : marks_kept facts facts.
Proof. by split. Qed.

Lemma marks_kept_trans f1 f2 f3 : marks_kept f1 f2 -> marks_kept f2 f3 -> marks_kept f1 f3.
Proof. intros [? ?] [? ?]. split; auto. Qed.

(** Writing an entry that keeps the marks of the one it replaces keeps the
    marks of every entry of the table. *)
Lemma put_facts_marks_kept g u fu x :
  MVM_spesh_get_facts g u = Some fu -> marks_kept fu x ->
  forall v f, MVM_spesh_get_facts g v = Some f ->
    exists f', MVM_spesh_get_facts (put_facts g u x) v = Some f' /\ marks_kept f f'.
Proof.
  intros Hu Hkept v f Hv. destruct (decide (u = v)) as [<-|Hne].
  - exists x. rewrite get_facts_put_same by (by rewrite Hu). split; [done|]. congruence.
  - exists f. rewrite get_facts_put_other by done. split; [done|apply marks_kept_refl].
Qed.

Lemma run_call_marks_kept c g out :
  run_call c g = Some out ->
  forall v f, MVM_spesh_get_facts g v = Some f ->
    exists f', MVM_spesh_get_facts (final out) v = Some f' /\ marks_kept f f'.
Proof.
  assert (Hquery : forall (r : option Z), r ≫= (fun _ => Some (Returns g)) = Some out ->
            final out = g).
  { intros [z|] Hr; simpl in Hr; [by injection Hr as <-|done]. }
  assert (Hsame : forall v f, MVM_spesh_get_facts g v = Some f ->
            exists f', MVM_spesh_get_facts g v = Some f' /\ marks_kept f f').
  { intros v f Hv. exists f. split; [done|apply marks_kept_refl]. }
  destruct c as [used by_ins|used by_ins|used|used|check|check|check|check|check];
    simpl; intros Hrun;
    try (rewrite (Hquery _ Hrun); exact Hsame).
  - unfold MVM_spesh_usages_add_by_reg in Hrun.
    destruct (MVM_spesh_get_facts g used) as [fu|] eqn:Hu; [|done].
    simpl in Hrun. injection Hrun as <-. simpl.
    by apply (put_facts_marks_kept g used fu).
  - unfold MVM_spesh_usages_delete_by_reg in Hrun.
    destruct (MVM_spesh_get_facts g used) as [fu|] eqn:Hu; [|done]. simpl in Hrun.
    destruct (usages_delete_final fu by_ins) as [chain Hfinal].
    destruct (MVM_spesh_usages_delete fu by_ins) as [fu'|d fu'];
      simpl in Hfinal; subst fu'; injection Hrun as <-; simpl;
      by apply (put_facts_marks_kept g used fu).
  - unfold MVM_spesh_usages_add_for_deopt_by_reg in Hrun.
    destruct (MVM_spesh_get_facts g used) as [fu|] eqn:Hu; [|done].
    simpl in Hrun. injection Hrun as <-. simpl.
    by apply (put_facts_marks_kept g used fu).
  - unfold MVM_spesh_usages_add_for_handler_by_reg in Hrun.
    destruct (MVM_spesh_get_facts g used) as [fu|] eqn:Hu; [|done].
    simpl in Hrun. injection Hrun as <-. simpl.
    by apply (put_facts_marks_kept g used fu).
Qed.

Lemma run_calls_marks_kept cs :
  forall g out, run_calls cs g = Some out ->
  forall v f, MVM_spesh_get_facts g v = Some f ->
    exists f', MVM_spesh_get_facts (final out) v = Some f' /\ marks_kept f f'.
Proof.
  induction cs as [|c cs IH]; intros g out Hrun v f Hv; simpl in Hrun.
  - injection Hrun as <-. exists f. split; [done|apply marks_kept_refl].
  - destruct (run_call c g) as [[g'|d g']|] eqn:Hc; [| |done].
    + destruct (run_call_marks_kept _ _ _ Hc v f Hv) as (f1 & Hv1 & Hk1). simpl in Hv1.
      destruct (IH _ _ Hrun v f1 Hv1) as (f' & Hv' & Hk').
      exists f'. split; [done|]. by eapply marks_kept_trans.
    + injection Hrun as <-. by apply (run_call_marks_kept _ _ _ Hc).
Qed.

(** C8: each of the two marking functions sets its mark and touches nothing
    else, a second call changes nothing, and a call on an entry whose mark is
    set leaves the entry as it is; whatever calls of the subsystem are made on
    a graph, and whether they all return or one of them is fatal, a mark that
    was set on a value is set at the end. *)
Theorem usages_marks_only_set :
  (forall facts,
     deopt_required (usage (MVM_spesh_usages_add_for_deopt facts)) = true /\
     MVM_spesh_usages_add_for_deopt facts = set_deopt_required true facts /\
     MVM_spesh_usages_add_for_deopt (MVM_spesh_usages_add_for_deopt facts)
     = MVM_spesh_usages_add_for_deopt facts /\
     (deopt_required (usage facts) = true -> MVM_spesh_usages_add_for_deopt facts = facts) /\
     users (usage (MVM_spesh_usages_add_for_deopt facts)) = users (usage facts) /\
     handler_required (usage (MVM_spesh_usages_add_for_deopt facts))
     = handler_required (usage facts) /\
     writer (MVM_spesh_usages_add_for_deopt facts) = writer facts) /\
  (forall facts,
     handler_required (usage (MVM_spesh_usages_add_for_handler facts)) = true /\
     MVM_spesh_usages_add_for_handler (MVM_spesh_usages_add_for_handler facts)
     = MVM_spesh_usages_add_for_handler facts /\
     (handler_required (usage facts) = true -> MVM_spesh_usages_add_for_handler facts = facts) /\
     users (usage (MVM_spesh_usages_add_for_handler facts)) = users (usage facts) /\
     deopt_required (usage (MVM_spesh_usages_add_for_handler facts))
     = deopt_required (usage facts) /\
     writer (MVM_spesh_usages_add_for_handler facts) = writer facts) /\
  (forall cs g out v facts,
     run_calls cs g = Some out ->
     MVM_spesh_get_facts g v = Some facts ->
     exists facts',
       MVM_spesh_get_facts (final out) v = Some facts' /\
       (deopt_required (usage facts) = true -> deopt_required (usage facts') = true) /\
       (handler_required (usage facts) = true -> handler_required (usage facts') = true)).
Proof.
  split; [|split].
  - intros [w [l d h]]. repeat split; try done. simpl. by intros ->.
  - intros [w [l d h]]. repeat split; try done. simpl. by intros ->.
  - intros cs g out v facts Hrun Hv.
    destruct (run_calls_marks_kept cs g out Hrun v facts Hv) as (f' & Hv' & Hd & Hh).
    by exists f'.
Qed.

Lemma usages_marks_only_set_witness :
  MVM_spesh_usages_add_for_deopt_by_reg Scenario.built Scenario.V2 = Some Scenario.marked /\
  run_calls [Call_delete Scenario.V1 Scenario.I2; Call_count Scenario.V2;
             Call_delete Scenario.V1 Scenario.I2; Call_delete Scenario.V1 Scenario.I2;
             Call_add Scenario.V2 Scenario.I3] Scenario.marked
  = Some (Oops "Spesh: instruction add_i missing from define-use chain"
            Scenario.marked_cleared) /\
  exists facts',
    MVM_spesh_get_facts Scenario.marked_cleared Scenario.V2 = Some facts' /\
    deopt_required (usage facts') = true.
Proof.
  destruct usages_marks_only_set as (_ & _ & Hkept).
  split; [reflexivity|]. split; [reflexivity|].
  destruct (Hkept [Call_delete Scenario.V1 Scenario.I2; Call_count Scenario.V2;
                   Call_delete Scenario.V1 Scenario.I2; Call_delete Scenario.V1 Scenario.I2;
                   Call_add Scenario.V2 Scenario.I3]
              Scenario.marked
              (Oops "Spesh: instruction add_i missing from define-use chain"
                 Scenario.marked_cleared)
              Scenario.V2 (set_deopt_required true (Scenario.fresh 32))
              eq_refl eq_refl) as (facts' & Hv & Hd & _).
  exists facts'. split; [exact Hv|exact (Hd eq_refl)].
Defined.

(** ** The checker *)

Lemma find_user_false cur_ins chain :
  find_user cur_ins chain = false <->
  Forall (fun e => user e <> ins_addr cur_ins) chain.
Proof.
  induction chain as [|e chain IH]; simpl; [done|].
  rewrite Forall_cons. destruct (N.eqb_spec (user e) (ins_addr cur_ins)) as [He|He].
  - split; [done|by intros [? _]].
  - rewrite IH. split; [done|by intros [_ ?]].
Qed.

Lemma find_user_true cur_ins chain :
  find_user cur_ins chain = true <->
  Exists (fun e => user e = ins_addr cur_ins) chain.
Proof.
  induction chain as [|e chain IH]; simpl.
  - split; [done|by inversion 1].
  - rewrite Exists_cons. destruct (N.eqb_spec (user e) (ins_addr cur_ins)) as [He|He].
    + split; [by left|done].
    + rewrite IH. split; [by right|by intros [|]].
Qed.

Lemma each_returns {A : Type} (body : A -> option (outcome unit)) l :
  each body l = Some (Returns tt) <-> Forall (fun x => body x = Some (Returns tt)) l.
Proof.
  induction l as [|x l IH]; simpl; [done|].
  rewrite Forall_cons. destruct (body x) as [[[]|d []]|]; split; try done.
  - intros H. split; [done|by apply IH].
  - intros [_ H]. by apply IH.
  - by intros [? _].
  - by intros [? _].
Qed.

Lemma each_oops {A : Type} (body : A -> option (outcome unit)) l d :
  each body l = Some (Oops d tt) -> Exists (fun x => body x = Some (Oops d tt)) l.
Proof.
  induction l as [|x l IH]; simpl; [done|].
  destruct (body x) as [[[]|d' []]|] eqn:Hx; intros H; [|left; congruence|done].
  right. by apply IH.
Qed.

Lemma each_raises {A : Type} (body : A -> option (outcome unit)) l :
  Forall (fun x => is_Some (body x)) l ->
  Exists (fun x => exists d, body x = Some (Oops d tt)) l ->
  exists d, each body l = Some (Oops d tt).
Proof.
  induction 1 as [|x l [r Hx] _ IH]; intros Hbad; [by inversion Hbad|]. simpl.
  rewrite Hx. destruct r as [[]|d []]; [|by exists d].
  apply IH. inversion Hbad as [? ? [d Hd]|]; [congruence|done].
Qed.

Lemma each_some {A : Type} (body : A -> option (outcome unit)) l :
  Forall (fun x => is_Some (body x)) l -> is_Some (each body l).
Proof.
  induction 1 as [|x l [r Hx] _ IH]; simpl; [done|].
  rewrite Hx. by destruct r as [[]|d []].
Qed.

Section CheckerProperties.

Variable MVM_SSA_PHI : Z.
Variable MVM_operand_rw_mask : Z.
Variable MVM_operand_read_reg : Z.
Variable MVM_operand_write_reg : Z.
Variable MVM_spesh_dump : MVMSpeshGraph -> string.

Local Abbreviation phi := (is_phi_ins MVM_SSA_PHI).
Local Abbreviation reads := (reads_operand MVM_operand_rw_mask MVM_operand_read_reg).
Local Abbreviation writes := (writes_operand MVM_operand_rw_mask MVM_operand_write_reg).
Local Abbreviation check_op :=
  (check_operand MVM_operand_rw_mask MVM_operand_read_reg MVM_operand_write_reg MVM_spesh_dump).
Local Abbreviation missing :=
  (missing_reader MVM_SSA_PHI MVM_operand_rw_mask MVM_operand_read_reg).
Local Abbreviation wrong :=
  (wrong_writer MVM_SSA_PHI MVM_operand_rw_mask MVM_operand_read_reg MVM_operand_write_reg).
Local Abbreviation check :=
  (MVM_spesh_usages_check MVM_SSA_PHI MVM_operand_rw_mask MVM_operand_read_reg
     MVM_operand_write_reg MVM_spesh_dump).
Local Abbreviation in_bounds :=
  (addressable MVM_SSA_PHI MVM_operand_rw_mask MVM_operand_read_reg MVM_operand_write_reg).

Lemma check_operand_oops g cur_bb cur_ins i d :
  check_op g cur_bb cur_ins (phi cur_ins) i = Some (Oops d tt) ->
  exists o facts,
    ins_operands cur_ins !! i = Some o /\ MVM_spesh_get_facts g o = Some facts /\
    ((missing cur_ins i facts /\
      d = reader_diag MVM_spesh_dump g cur_bb cur_ins (phi cur_ins) o) \/
     (wrong cur_ins i facts /\
      d = writer_diag MVM_spesh_dump g cur_bb cur_ins (phi cur_ins) o)).
Proof.
  unfold check_operand, missing_reader, wrong_writer.
  destruct (reads (phi cur_ins) cur_ins i) as [[|]|] eqn:Hr; simpl; [| |done].
  - destruct (ins_operands cur_ins !! i) as [o|]; simpl; [|done].
    destruct (MVM_spesh_get_facts g o) as [facts|] eqn:Hf; simpl; [|done].
    destruct (find_user cur_ins (users (usage facts))) eqn:Hfound; simpl; [done|].
    intros [= <-]. exists o, facts. apply find_user_false in Hfound.
    split; [done|]. split; [done|]. left. by split.
  - destruct (writes (phi cur_ins) cur_ins i) as [[|]|] eqn:Hw; simpl; [|done|done].
    destruct (ins_operands cur_ins !! i) as [o|]; simpl; [|done].
    destruct (MVM_spesh_get_facts g o) as [facts|] eqn:Hf; simpl; [|done].
    destruct (N.eqb_spec (writer facts) (ins_addr cur_ins)) as [Hweq|Hweq]; simpl; [done|].
    intros [= <-]. exists o, facts.
    split; [done|]. split; [done|]. right. by split.
Qed.

Lemma check_operand_returns_read g cur_bb cur_ins i o :
  check_op g cur_bb cur_ins (phi cur_ins) i = Some (Returns tt) ->
  reads (phi cur_ins) cur_ins i = Some true ->
  ins_operands cur_ins !! i = Some o ->
  exists facts,
    MVM_spesh_get_facts g o = Some facts /\
    Exists (fun e => user e = ins_addr cur_ins) (users (usage facts)).
Proof.
  unfold check_operand. intros Hret Hr Ho. rewrite Hr, Ho in Hret. simpl in Hret.
  destruct (MVM_spesh_get_facts g o) as [facts|]; simpl in Hret; [|done].
  exists facts. split; [done|]. apply find_user_true.
  by destruct (find_user cur_ins (users (usage facts))).
Qed.

Lemma check_operand_bad g cur_bb cur_ins i o facts :
  ins_operands cur_ins !! i = Some o -> MVM_spesh_get_facts g o = Some facts ->
  missing cur_ins i facts \/ wrong cur_ins i facts ->
  exists d, check_op g cur_bb cur_ins (phi cur_ins) i = Some (Oops d tt).
Proof.
  unfold check_operand, missing_reader, wrong_writer.
  intros Ho Hf [[Hr Hno]|(Hr & Hw & Hne)]; rewrite Hr; simpl.
  - rewrite Ho; simpl. rewrite Hf; simpl.
    apply find_user_false in Hno. rewrite Hno. simpl. by eexists.
  - rewrite Hw; simpl. rewrite Ho; simpl. rewrite Hf; simpl.
    apply N.eqb_neq in Hne. rewrite Hne. simpl. by eexists.
Qed.

Lemma reads_operand_some cur_ins i :
  (phi cur_ins = false -> is_Some (operands (info cur_ins) !! i)) ->
  is_Some (reads (phi cur_ins) cur_ins i) /\ is_Some (writes (phi cur_ins) cur_ins i).
Proof.
  unfold reads_operand, writes_operand, operand_rw. intros Hdesc.
  destruct (phi cur_ins); simpl.
  - split; [by destruct (0 <? i)%nat|by destruct (i =? 0)%nat].
  - destruct (Hdesc eq_refl) as [desc ->]. simpl. by split.
Qed.

Lemma check_operand_good g cur_bb cur_ins i :
  (phi cur_ins = false -> is_Some (operands (info cur_ins) !! i)) ->
  (reads (phi cur_ins) cur_ins i = Some true \/ writes (phi cur_ins) cur_ins i = Some true ->
   exists o facts,
     ins_operands cur_ins !! i = Some o /\ MVM_spesh_get_facts g o = Some facts /\
     ~ missing cur_ins i facts /\ ~ wrong cur_ins i facts) ->
  check_op g cur_bb cur_ins (phi cur_ins) i = Some (Returns tt).
Proof.
  intros Hdesc Hslot. destruct (reads_operand_some cur_ins i Hdesc) as [[rd Hr] [wr Hw]].
  unfold check_operand. rewrite Hr. simpl. destruct rd.
  - destruct Hslot as (o & facts & Ho & Hf & Hmiss & _); [by left|].
    rewrite Ho; simpl. rewrite Hf; simpl.
    destruct (find_user cur_ins (users (usage facts))) eqn:Hfound; simpl; [done|].
    exfalso. apply Hmiss. split; [done|]. by apply find_user_false.
  - rewrite Hw. simpl. destruct wr; [|done].
    destruct Hslot as (o & facts & Ho & Hf & _ & Hwrong); [by right|].
    rewrite Ho; simpl. rewrite Hf; simpl.
    destruct (N.eqb_spec (writer facts) (ins_addr cur_ins)) as [Hweq|Hweq]; simpl; [done|].
    exfalso. apply Hwrong. by repeat split.
Qed.

Lemma check_operand_some g cur_bb cur_ins i :
  (phi cur_ins = false -> is_Some (operands (info cur_ins) !! i)) ->
  (reads (phi cur_ins) cur_ins i = Some true \/ writes (phi cur_ins) cur_ins i = Some true ->
   exists o, ins_operands cur_ins !! i = Some o /\ is_Some (MVM_spesh_get_facts g o)) ->
  is_Some (check_op g cur_bb cur_ins (phi cur_ins) i).
Proof.
  intros Hdesc Hslot. destruct (reads_operand_some cur_ins i Hdesc) as [[rd Hr] [wr Hw]].
  unfold check_operand. rewrite Hr. simpl. destruct rd.
  - destruct Hslot as (o & Ho & [facts Hf]); [by left|].
    rewrite Ho; simpl. rewrite Hf; simpl.
    by destruct (find_user cur_ins (users (usage facts))).
  - rewrite Hw. simpl. destruct wr; [|done].
    destruct Hslot as (o & Ho & [facts Hf]); [by right|].
    rewrite Ho; simpl. rewrite Hf; simpl.
    by destruct (writer facts =? ins_addr cur_ins)%N.
Qed.

Lemma check_ins_some g cur_bb cur_ins :
  in_bounds g -> cur_bb ∈ entry g -> cur_ins ∈ first_ins cur_bb ->
  is_Some (check_ins MVM_SSA_PHI MVM_operand_rw_mask MVM_operand_read_reg
             MVM_operand_write_reg MVM_spesh_dump g cur_bb cur_ins).
Proof.
  intros Hin Hbb Hins. unfold check_ins. cbv zeta.
  apply each_some, Forall_forall. intros i Hi. apply elem_of_seq in Hi.
  destruct (Hin cur_bb cur_ins i Hbb Hins) as [Hdesc Hslot]; [lia|].
  by apply check_operand_some.
Qed.

Lemma check_bb_some g cur_bb :
  in_bounds g -> cur_bb ∈ entry g ->
  is_Some (check_bb MVM_SSA_PHI MVM_operand_rw_mask MVM_operand_read_reg
             MVM_operand_write_reg MVM_spesh_dump g cur_bb).
Proof.
  intros Hin Hbb. unfold check_bb.
  apply each_some, Forall_forall. intros cur_ins Hins. by apply check_ins_some.
Qed.

(** The checker in terms of the two conditions of its loop body: a
    diagnostic is about a slot that the conditions send to a check that
    fails; on a graph whose accesses are defined, one such slot makes the
    checker raise a diagnostic, and none makes it return. *)
Lemma check_by_conditions (g : MVMSpeshGraph) :
  (forall cur_ins i,
     reads true cur_ins i = Some (0 <? i)%nat /\
     writes true cur_ins i = Some (i =? 0)%nat) /\
  (forall d, check g = Some (Oops d tt) ->
     exists cur_bb cur_ins i o facts,
       slot_of g cur_bb cur_ins i o facts /\
       ((missing cur_ins i facts /\
         d = "Malformed DU chain: reader " +:+ ins_name (phi cur_ins) cur_ins +:+ " of "
             +:+ dec (Z.of_N (reg_orig o)) +:+ "(" +:+ dec (Z.of_N (reg_i o)) +:+ ") in BB "
             +:+ dec (idx cur_bb) +:+ " missing" +:+ newline +:+ MVM_spesh_dump g) \/
        (wrong cur_ins i facts /\
         d = "Malformed DU chain: writer " +:+ ins_name (phi cur_ins) cur_ins +:+ " of "
             +:+ dec (Z.of_N (reg_orig o)) +:+ "(" +:+ dec (Z.of_N (reg_i o)) +:+ ") in BB "
             +:+ dec (idx cur_bb) +:+ " is incorrect" +:+ newline +:+ MVM_spesh_dump g))) /\
  (in_bounds g ->
   (exists cur_bb cur_ins i o facts,
      slot_of g cur_bb cur_ins i o facts /\
      (missing cur_ins i facts \/ wrong cur_ins i facts)) ->
   exists d, check g = Some (Oops d tt)) /\
  (in_bounds g ->
   (forall cur_bb cur_ins i o facts,
      slot_of g cur_bb cur_ins i o facts ->
      ~ missing cur_ins i facts /\ ~ wrong cur_ins i facts) ->
   check g = Some (Returns tt)).
Proof.
  split; [|split; [|split]].
  - intros cur_ins i. unfold reads_operand, writes_operand. simpl.
    split; [by destruct (0 <? i)%nat|by destruct (i =? 0)%nat].
  - intros d Hd. unfold MVM_spesh_usages_check in Hd.
    apply each_oops, Exists_exists in Hd as (cur_bb & Hbb & Hd). unfold check_bb in Hd.
    apply each_oops, Exists_exists in Hd as (cur_ins & Hins & Hd).
    unfold check_ins in Hd. cbv zeta in Hd.
    apply each_oops, Exists_exists in Hd as (i & Hi & Hd). apply elem_of_seq in Hi.
    apply check_operand_oops in Hd as (o & facts & Ho & Hf & Hd).
    exists cur_bb, cur_ins, i, o, facts. split; [|exact Hd].
    unfold slot_of. repeat split; try done. lia.
  - intros Hin (cur_bb & cur_ins & i & o & facts & (Hbb & Hins & Hi & Ho & Hf) & Hbad).
    unfold MVM_spesh_usages_check. apply each_raises.
    { apply Forall_forall. intros bb Hb. by apply check_bb_some. }
    apply Exists_exists. exists cur_bb. split; [done|].
    unfold check_bb. apply each_raises.
    { apply Forall_forall. intros ins Hi'. by apply check_ins_some. }
    apply Exists_exists. exists cur_ins. split; [done|].
    unfold check_ins. cbv zeta. apply each_raises.
    { apply Forall_forall. intros j Hj. apply elem_of_seq in Hj.
      destruct (Hin cur_bb cur_ins j Hbb Hins) as [Hdesc Hslot]; [lia|].
      by apply check_operand_some. }
    apply Exists_exists. exists i. split; [apply elem_of_seq; lia|].
    by apply (check_operand_bad g cur_bb cur_ins i o facts).
  - intros Hin Hfine. unfold MVM_spesh_usages_check.
    apply each_returns, Forall_forall. intros cur_bb Hbb. unfold check_bb.
    apply each_returns, Forall_forall. intros cur_ins Hins. unfold check_ins. cbv zeta.
    apply each_returns, Forall_forall. intros i Hi. apply elem_of_seq in Hi.
    destruct (Hin cur_bb cur_ins i Hbb Hins) as [Hdesc Hslot]; [lia|].
    apply check_operand_good; [done|]. intros Hrw.
    destruct (Hslot Hrw) as (o & Ho & [facts Hf]). exists o, facts.
    split; [done|]. split; [done|].
    apply (Hfine cur_bb cur_ins i o facts). unfold slot_of. repeat split; try done. lia.
Qed.

Local Abbreviation rd_slot :=
  (slot_reads MVM_SSA_PHI MVM_operand_rw_mask MVM_operand_read_reg).
Local Abbreviation wr_slot :=
  (slot_writes MVM_SSA_PHI MVM_operand_rw_mask MVM_operand_write_reg).
Local Abbreviation bounded :=
  (slots_in_bounds MVM_SSA_PHI MVM_operand_rw_mask MVM_operand_read_reg MVM_operand_write_reg).

(** The two conditions of the loop body against the descriptors. *)
Lemma reads_operand_true cur_ins i :
  reads (phi cur_ins) cur_ins i = Some true <-> rd_slot cur_ins i.
Proof.
  unfold reads_operand, operand_rw, slot_reads, is_phi_ins.
  destruct (Z.eqb_spec (opcode (info cur_ins)) MVM_SSA_PHI) as [Hp|Hp]; simpl.
  - destruct (Nat.ltb_spec 0 i) as [Hi|Hi]; split; try done.
    + intros _. by left.
    + intros [[_ Hlt]|[Hne _]]; [lia|done].
  - destruct (operands (info cur_ins) !! i) as [d|]; simpl.
    + destruct (Z.eqb_spec (Z.land d MVM_operand_rw_mask) MVM_operand_read_reg) as [Hd|Hd].
      * split; [|done]. intros _. right. split; [done|]. by exists d.
      * split; [done|]. intros [[Heq _]|(_ & d' & [= <-] & Hd')]; done.
    + split; [done|]. intros [[Heq _]|(_ & d' & Hd' & _)]; done.
Qed.

Lemma writes_operand_true cur_ins i :
  writes (phi cur_ins) cur_ins i = Some true <-> wr_slot cur_ins i.
Proof.
  unfold writes_operand, operand_rw, slot_writes, is_phi_ins.
  destruct (Z.eqb_spec (opcode (info cur_ins)) MVM_SSA_PHI) as [Hp|Hp]; simpl.
  - destruct (Nat.eqb_spec i 0) as [Hi|Hi]; split; try done.
    + intros _. by left.
    + intros [[_ Hz]|[Hne _]]; done.
  - destruct (operands (info cur_ins) !! i) as [d|]; simpl.
    + destruct (Z.eqb_spec (Z.land d MVM_operand_rw_mask) MVM_operand_write_reg) as [Hd|Hd].
      * split; [|done]. intros _. right. split; [done|]. by exists d.
      * split; [done|]. intros [[Heq _]|(_ & d' & [= <-] & Hd')]; done.
    + split; [done|]. intros [[Heq _]|(_ & d' & Hd' & _)]; done.
Qed.

Lemma reads_operand_false cur_ins i :
  reads (phi cur_ins) cur_ins i = Some false <->
  ~ rd_slot cur_ins i /\
  (opcode (info cur_ins) <> MVM_SSA_PHI -> is_Some (operands (info cur_ins) !! i)).
Proof.
  rewrite <- reads_operand_true.
  unfold reads_operand, operand_rw, is_phi_ins.
  destruct (Z.eqb_spec (opcode (info cur_ins)) MVM_SSA_PHI) as [Hp|Hp]; simpl.
  - destruct (0 <? i)%nat; (split; [intros Hr|intros [Hno Hd]]);
      try done; try (by destruct Hno).
  - destruct (operands (info cur_ins) !! i) as [d|]; simpl.
    + destruct (Z.land d MVM_operand_rw_mask =? MVM_operand_read_reg);
        (split; [intros Hr|intros [Hno Hd]]); try done; try (by destruct Hno).
    + split; [done|]. intros [_ Hd]. by destruct (Hd Hp).
Qed.

Lemma wr_slot_described cur_ins i :
  wr_slot cur_ins i ->
  opcode (info cur_ins) <> MVM_SSA_PHI -> is_Some (operands (info cur_ins) !! i).
Proof. intros [[Hp _]|(_ & d & Hd & _)] Hne; [done|by eexists]. Qed.

Lemma unread_by_Forall cur_ins facts :
  unread_by cur_ins facts <->
  Forall (fun e => user e <> ins_addr cur_ins) (users (usage facts)).
Proof. unfold unread_by. by rewrite Forall_forall. Qed.

Lemma missing_reader_described cur_ins i facts :
  missing cur_ins i facts <-> rd_slot cur_ins i /\ unread_by cur_ins facts.
Proof. unfold missing_reader. by rewrite reads_operand_true, unread_by_Forall. Qed.

Lemma wrong_writer_described cur_ins i facts :
  wrong cur_ins i facts <->
  wr_slot cur_ins i /\ ~ rd_slot cur_ins i /\ writer facts <> ins_addr cur_ins.
Proof.
  unfold wrong_writer. rewrite reads_operand_false, writes_operand_true. split.
  - intros ([Hnr _] & Hw & Hne). done.
  - intros (Hw & Hnr & Hne). repeat split; try done. by apply wr_slot_described.
Qed.

Lemma slots_in_bounds_addressable g : bounded g -> in_bounds g.
Proof.
  intros Hb cur_bb cur_ins i Hbb Hins Hi.
  destruct (Hb cur_bb cur_ins i Hbb Hins Hi) as [Hdesc Hslot]. split.
  - unfold is_phi_ins. intros Hp. apply Hdesc. by apply Z.eqb_neq.
  - rewrite reads_operand_true, writes_operand_true. exact Hslot.
Qed.

Lemma ins_name_named cur_ins :
  ins_name (phi cur_ins) cur_ins = named MVM_SSA_PHI cur_ins.
Proof.
  unfold ins_name, named, is_phi_ins.
  destruct (Z.eqb_spec (opcode (info cur_ins)) MVM_SSA_PHI);
    destruct (decide (opcode (info cur_ins) = MVM_SSA_PHI)); done.
Qed.

(** C5: the checker goes through every operand slot of every instruction of
    every block, the slots being classified from the opcode and the
    descriptors: slot 0 of a PHI is its write and the other slots are reads,
    a slot of another instruction is a read or a write by the access bits of
    its descriptor (a slot is never both when the two codes differ).  On an
    instruction stream whose operand counts fit the index of the loop:
    - a diagnostic that the checker raises is about a slot of the stream that
      is a read of a value whose chain has no entry for the instruction, or a
      write of a value with another writer, and spells out the instruction
      (PHI for a PHI), the value and the index of the block;
    - when the slots lie inside the tables, one slot that is wrong in one of
      these two ways makes the checker raise a diagnostic;
    - when the slots lie inside the tables and every read has an entry and
      every write the right writer, the checker returns. *)
Theorem usages_check_diagnoses (g : MVMSpeshGraph) :
  operand_counts_fit g ->
  (MVM_operand_read_reg <> MVM_operand_write_reg ->
   forall cur_ins i, wr_slot cur_ins i -> ~ rd_slot cur_ins i) /\
  (forall d, check g = Some (Oops d tt) ->
     exists cur_bb cur_ins i o facts,
       slot_of g cur_bb cur_ins i o facts /\
       ((rd_slot cur_ins i /\ unread_by cur_ins facts /\
         d = "Malformed DU chain: reader " +:+ named MVM_SSA_PHI cur_ins +:+ " of "
             +:+ dec (Z.of_N (reg_orig o)) +:+ "(" +:+ dec (Z.of_N (reg_i o)) +:+ ") in BB "
             +:+ dec (idx cur_bb) +:+ " missing" +:+ newline +:+ MVM_spesh_dump g) \/
        (wr_slot cur_ins i /\ ~ rd_slot cur_ins i /\ writer facts <> ins_addr cur_ins /\
         d = "Malformed DU chain: writer " +:+ named MVM_SSA_PHI cur_ins +:+ " of "
             +:+ dec (Z.of_N (reg_orig o)) +:+ "(" +:+ dec (Z.of_N (reg_i o)) +:+ ") in BB "
             +:+ dec (idx cur_bb) +:+ " is incorrect" +:+ newline +:+ MVM_spesh_dump g))) /\
  (bounded g ->
   forall cur_bb cur_ins i o facts,
     slot_of g cur_bb cur_ins i o facts ->
     (rd_slot cur_ins i /\ unread_by cur_ins facts) \/
     (wr_slot cur_ins i /\ ~ rd_slot cur_ins i /\ writer facts <> ins_addr cur_ins) ->
     exists d, check g = Some (Oops d tt)) /\
  (bounded g ->
   (forall cur_bb cur_ins i o facts,
      slot_of g cur_bb cur_ins i o facts ->
      (rd_slot cur_ins i ->
       exists e, e ∈ users (usage facts) /\ user e = ins_addr cur_ins) /\
      (wr_slot cur_ins i -> ~ rd_slot cur_ins i -> writer facts = ins_addr cur_ins)) ->
   check g = Some (Returns tt)).
Proof.
  intros _. destruct (check_by_conditions g) as (_ & Hsound & Hraise & Hpass).
  split; [|split; [|split]].
  - intros Hcodes cur_ins i [[Hp Hz]|(Hp & d & Hd & Hw)] [[Hp' Hi]|(Hp' & d' & Hd' & Hr)];
      try done; try lia.
    apply Hcodes. congruence.
  - intros d Hd.
    destruct (Hsound d Hd) as (cur_bb & cur_ins & i & o & facts & Hslot & Hbad).
    exists cur_bb, cur_ins, i, o, facts. split; [done|].
    rewrite <- ins_name_named.
    destruct Hbad as [[Hm ->]|[Hw ->]]; [left|right].
    + apply missing_reader_described in Hm as [Hr Hun]. by repeat split.
    + apply wrong_writer_described in Hw as (Hw & Hnr & Hne). by repeat split.
  - intros Hb cur_bb cur_ins i o facts Hslot Hbad.
    apply Hraise; [by apply slots_in_bounds_addressable|].
    exists cur_bb, cur_ins, i, o, facts. split; [done|].
    destruct Hbad as [Hm|Hw]; [left; by apply missing_reader_described
                              |right; by apply wrong_writer_described].
  - intros Hb Hfine. apply Hpass; [by apply slots_in_bounds_addressable|].
    intros cur_bb cur_ins i o facts Hslot.
    destruct (Hfine cur_bb cur_ins i o facts Hslot) as [Hreads Hwrites]. split.
    + intros [Hr Hun]%missing_reader_described.
      destruct (Hreads Hr) as (e & He & Hu). by apply (Hun e).
    + intros (Hw & Hnr & Hne)%wrong_writer_described. by apply Hne, Hwrites.
Qed.

Lemma entries_of_some a chain :
  Exists (fun e => user e = a) chain -> (0 < entries_of a chain)%nat.
Proof.
  intros Hex. destruct (entries_of a chain) eqn:Hn; [|lia].
  apply entries_of_none in Hn. apply Exists_exists in Hex as (e & He & Hu).
  rewrite Forall_forall in Hn. by destruct (Hn e He).
Qed.

Lemma reads_of_slot cur_ins v :
  v ∈ reads_of MVM_SSA_PHI MVM_operand_rw_mask MVM_operand_read_reg cur_ins ->
  exists i, (i < N.to_nat (num_operands (info cur_ins)))%nat /\
    reads (phi cur_ins) cur_ins i = Some true /\ ins_operands cur_ins !! i = Some v.
Proof.
  unfold reads_of. rewrite list_elem_of_In, in_flat_map.
  intros (i & Hi & Hv). apply list_elem_of_In, elem_of_seq in Hi.
  exists i. split; [lia|].
  destruct (reads (phi cur_ins) cur_ins i) as [[|]|]; try done.
  destruct (ins_operands cur_ins !! i) as [o|]; [|done].
  destruct Hv as [->|[]]. done.
Qed.

(** C4, as the code has it: when the checker returns, every read occurrence
    of a value in the instruction stream has at least one entry for the
    reading instruction in the chain of the value.  Nothing is established
    about how many entries there are for how many occurrences, nor about
    entries that no read accounts for. *)
Theorem usages_check_finds_readers (g : MVMSpeshGraph) :
  check g = Some (Returns tt) ->
  forall a v,
    (0 < read_occurrences MVM_SSA_PHI MVM_operand_rw_mask MVM_operand_read_reg g a v)%nat ->
    (0 < chain_entries g a v)%nat.
Proof.
  intros Hret a v Hocc. unfold read_occurrences in Hocc.
  destruct (filter _ _) as [|o rest] eqn:Hfilter in Hocc; [simpl in Hocc; lia|].
  assert (Ho : o ∈ o :: rest) by (apply elem_of_cons; by left).
  rewrite <- Hfilter in Ho. apply list_elem_of_filter in Ho as [-> Ho].
  rewrite list_elem_of_In, in_flat_map in Ho. destruct Ho as (cur_ins & Hins & Hv).
  apply list_elem_of_In, list_elem_of_filter in Hins as [Ha Hins].
  unfold instructions in Hins. rewrite list_elem_of_In, in_flat_map in Hins.
  destruct Hins as (cur_bb & Hbb & Hins).
  apply list_elem_of_In in Hbb, Hins, Hv.
  apply reads_of_slot in Hv as (i & Hi & Hr & Hop).
  unfold MVM_spesh_usages_check in Hret.
  rewrite each_returns, Forall_forall in Hret. specialize (Hret cur_bb Hbb).
  unfold check_bb in Hret. rewrite each_returns, Forall_forall in Hret.
  specialize (Hret cur_ins Hins). unfold check_ins in Hret. cbv zeta in Hret.
  rewrite each_returns, Forall_forall in Hret.
  assert (Hseq : i ∈ seq 0 (N.to_nat (num_operands (info cur_ins)))).
  { apply elem_of_seq. lia. }
  specialize (Hret i Hseq).
  destruct (check_operand_returns_read g cur_bb cur_ins i v Hret Hr Hop) as (facts & Hf & Hex).
  unfold chain_entries. rewrite Hf. subst a. by apply entries_of_some.
Qed.

End CheckerProperties.

(** ** The checker on the small graph *)

Example check_built : scenario_check Scenario.built = Some (Returns tt).
Proof. reflexivity. Qed.

Example check_unregistered :
  scenario_check Scenario.unregistered
  = Some (Oops ("Malformed DU chain: reader add_i of 0(0) in BB 0 missing"
                +:+ newline +:+ "<dump>") tt).
Proof. reflexivity. Qed.

Example check_merged : scenario_check Scenario.merged = Some (Returns tt).
Proof. reflexivity. Qed.

Example check_merged_by_other :
  scenario_check Scenario.merged_by_other
  = Some (Oops ("Malformed DU chain: writer PHI of 1(1) in BB 1 is incorrect"
                +:+ newline +:+ "<dump>") tt).
Proof. reflexivity. Qed.

Example check_dangling_entry :
  scenario_check Scenario.dangling_entry = Some (Returns tt) /\
  ~ chain_fidelity Scenario.SSA_PHI Scenario.operand_rw_mask Scenario.operand_read_reg
      Scenario.dangling_entry.
Proof.
  split; [reflexivity|]. intros Hfid.
  specialize (Hfid 16%N Scenario.V2). vm_compute in Hfid. discriminate Hfid.
Qed.

(** C4, as the specification states it, fails: with one of the two entries of [I2]
    taken out of the chain of [V1], the checker still returns, and the two
    reads of [V1] by [I2] face a single entry. *)
Lemma usages_check_accepts_short_chain :
  scenario_check Scenario.one_entry_short = Some (Returns tt) /\
  ~ chain_fidelity Scenario.SSA_PHI Scenario.operand_rw_mask Scenario.operand_read_reg
      Scenario.one_entry_short.
Proof.
  split; [reflexivity|]. intros Hfid.
  specialize (Hfid 32%N Scenario.V1). vm_compute in Hfid. discriminate Hfid.
Qed.

Lemma usages_check_finds_readers_witness :
  scenario_check Scenario.built = Some (Returns tt) /\
  (0 < read_occurrences Scenario.SSA_PHI Scenario.operand_rw_mask Scenario.operand_read_reg
         Scenario.built 32 Scenario.V1)%nat /\
  (0 < chain_entries Scenario.built 32 Scenario.V1)%nat.
Proof.
  assert (Hocc : (0 < read_occurrences Scenario.SSA_PHI Scenario.operand_rw_mask
                         Scenario.operand_read_reg Scenario.built 32 Scenario.V1)%nat).
  { vm_compute. lia. }
  split; [reflexivity|]. split; [exact Hocc|].
  exact (usages_check_finds_readers Scenario.SSA_PHI Scenario.operand_rw_mask
           Scenario.operand_read_reg Scenario.operand_write_reg Scenario.dump
           Scenario.built eq_refl 32%N Scenario.V1 Hocc).
Defined.


(** The slots of the three instructions of [Scenario.typed_stream]. *)
Ltac typed_instructions Hbb Hins :=
  simpl in Hbb; unfold Scenario.typed_stream in Hbb;
  rewrite !elem_of_cons, elem_of_nil in Hbb;
  destruct Hbb as [->|[->|[]]]; simpl in Hins;
  rewrite !elem_of_cons, elem_of_nil in Hins;
  [destruct Hins as [->|[->|[]]]|destruct Hins as [->|[]]].

Ltac typed_slots Hbb Hins Hi :=
  typed_instructions Hbb Hins; simpl in Hi;
  match type of Hi with
  | (?i < _)%nat => destruct i as [|[|[|i]]]; try lia
  end.

Lemma typed_counts_fit f1 f2 f3 :
  operand_counts_fit (Scenario.typed_graph f1 f2 f3).
Proof. intros cur_bb cur_ins Hbb Hins. typed_instructions Hbb Hins; reflexivity. Qed.

Lemma typed_in_bounds f1 f2 f3 : scenario_in_bounds (Scenario.typed_graph f1 f2 f3).
Proof.
  intros cur_bb cur_ins i Hbb Hins Hi.
  typed_slots Hbb Hins Hi;
    (split; [intros Hne; first [by destruct Hne|by eexists]|]);
    intros [Hrw|Hrw];
    first [ apply reads_operand_true in Hrw; discriminate Hrw
          | apply writes_operand_true in Hrw; discriminate Hrw
          | eexists; (split; [reflexivity|by eexists]) ].
Qed.

Lemma usages_check_diagnoses_witness :
  (operand_counts_fit Scenario.typed /\ scenario_in_bounds Scenario.typed /\
   scenario_check Scenario.typed = Some (Returns tt)) /\
  (slot_writes Scenario.SSA_PHI Scenario.operand_rw_mask Scenario.operand_write_reg
     Scenario.J2 0 /\
   ~ slot_reads Scenario.SSA_PHI Scenario.operand_rw_mask Scenario.operand_read_reg
       Scenario.J2 0 /\
   (exists d, scenario_check Scenario.typed_wrong_writer = Some (Oops d tt)) /\
   scenario_check Scenario.typed_wrong_writer
   = Some (Oops ("Malformed DU chain: writer add_i of 1(0) in BB 0 is incorrect"
                 +:+ newline +:+ "<dump>") tt)) /\
  (slot_writes Scenario.SSA_PHI Scenario.operand_rw_mask Scenario.operand_write_reg
     Scenario.P 0 /\
   (exists d, scenario_check Scenario.typed_wrong_phi = Some (Oops d tt)) /\
   scenario_check Scenario.typed_wrong_phi
   = Some (Oops ("Malformed DU chain: writer PHI of 1(1) in BB 1 is incorrect"
                 +:+ newline +:+ "<dump>") tt)) /\
  (slot_reads Scenario.SSA_PHI Scenario.operand_rw_mask Scenario.operand_read_reg
     Scenario.P 1 /\
   unread_by Scenario.P (Scenario.fresh 32) /\
   (exists d, scenario_check Scenario.typed_unread = Some (Oops d tt)) /\
   scenario_check Scenario.typed_unread
   = Some (Oops ("Malformed DU chain: reader PHI of 1(0) in BB 1 missing"
                 +:+ newline +:+ "<dump>") tt)).
Proof.
  assert (Hb0 : {| idx := 0; first_ins := [Scenario.J1; Scenario.J2] |} ∈ Scenario.typed_stream)
    by (apply elem_of_cons; by left).
  assert (Hb1 : {| idx := 1; first_ins := [Scenario.P] |} ∈ Scenario.typed_stream)
    by (apply elem_of_cons; right; apply elem_of_cons; by left).
  assert (HJ2 : Scenario.J2 ∈ [Scenario.J1; Scenario.J2])
    by (apply elem_of_cons; right; apply elem_of_cons; by left).
  assert (HP : Scenario.P ∈ [Scenario.P]) by (apply elem_of_cons; by left).
  assert (HwJ2 : slot_writes Scenario.SSA_PHI Scenario.operand_rw_mask
                   Scenario.operand_write_reg Scenario.J2 0).
  { right. split; [discriminate|]. exists 34. by split. }
  assert (HnrJ2 : ~ slot_reads Scenario.SSA_PHI Scenario.operand_rw_mask
                      Scenario.operand_read_reg Scenario.J2 0).
  { intros Hr. apply reads_operand_true in Hr. discriminate Hr. }
  assert (HwP : slot_writes Scenario.SSA_PHI Scenario.operand_rw_mask
                  Scenario.operand_write_reg Scenario.P 0).
  { left. by split. }
  assert (HnrP : ~ slot_reads Scenario.SSA_PHI Scenario.operand_rw_mask
                     Scenario.operand_read_reg Scenario.P 0).
  { intros Hr. apply reads_operand_true in Hr. discriminate Hr. }
  assert (HrP : slot_reads Scenario.SSA_PHI Scenario.operand_rw_mask
                  Scenario.operand_read_reg Scenario.P 1).
  { left. split; [reflexivity|lia]. }
  assert (Hun : unread_by Scenario.P (Scenario.fresh 32)).
  { intros e He. by apply elem_of_nil in He. }
  split; [|split; [|split]].
  - split; [apply typed_counts_fit|]. split; [apply typed_in_bounds|].
    destruct (usages_check_diagnoses Scenario.SSA_PHI Scenario.operand_rw_mask
                Scenario.operand_read_reg Scenario.operand_write_reg Scenario.dump
                Scenario.typed (typed_counts_fit _ _ _)) as (_ & _ & _ & Hpass).
    apply Hpass; [apply typed_in_bounds|].
    intros cur_bb cur_ins i o facts (Hbb & Hins & Hi & Ho & Hf).
    typed_slots Hbb Hins Hi; vm_compute in Ho; injection Ho as <-;
      vm_compute in Hf; try discriminate Hf; injection Hf as <-;
      (split;
       [intros Hr;
        first [ apply reads_operand_true in Hr; discriminate Hr
              | match goal with
                | |- exists e, e ∈ _ /\ user e = ?a =>
                    exists {| user := a |}; split;
                    [apply list_elem_of_In; vm_compute; auto 6|reflexivity]
                end ]
       |intros Hw Hnr;
        first [ reflexivity
              | apply writes_operand_true in Hw; discriminate Hw ]]).
  - split; [exact HwJ2|]. split; [exact HnrJ2|]. split; [|reflexivity].
    destruct (usages_check_diagnoses Scenario.SSA_PHI Scenario.operand_rw_mask
                Scenario.operand_read_reg Scenario.operand_write_reg Scenario.dump
                Scenario.typed_wrong_writer (typed_counts_fit _ _ _)) as (_ & _ & Hraise & _).
    apply (Hraise (typed_in_bounds _ _ _)
             {| idx := 0; first_ins := [Scenario.J1; Scenario.J2] |} Scenario.J2 0%nat
             Scenario.V2 (set_users [{| user := 64 |}] (Scenario.fresh 16))).
    + unfold slot_of. split; [exact Hb0|]. split; [exact HJ2|]. split; [simpl; lia|].
      split; reflexivity.
    + right. split; [exact HwJ2|]. split; [exact HnrJ2|]. simpl. lia.
  - split; [exact HwP|]. split; [|reflexivity].
    destruct (usages_check_diagnoses Scenario.SSA_PHI Scenario.operand_rw_mask
                Scenario.operand_read_reg Scenario.operand_write_reg Scenario.dump
                Scenario.typed_wrong_phi (typed_counts_fit _ _ _)) as (_ & _ & Hraise & _).
    apply (Hraise (typed_in_bounds _ _ _)
             {| idx := 1; first_ins := [Scenario.P] |} Scenario.P 0%nat
             Scenario.V3 (Scenario.fresh 32)).
    + unfold slot_of. split; [exact Hb1|]. split; [exact HP|]. split; [simpl; lia|].
      split; reflexivity.
    + right. split; [exact HwP|]. split; [exact HnrP|]. simpl. lia.
  - split; [exact HrP|]. split; [exact Hun|]. split; [|reflexivity].
    destruct (usages_check_diagnoses Scenario.SSA_PHI Scenario.operand_rw_mask
                Scenario.operand_read_reg Scenario.operand_write_reg Scenario.dump
                Scenario.typed_unread (typed_counts_fit _ _ _)) as (_ & _ & Hraise & _).
    apply (Hraise (typed_in_bounds _ _ _)
             {| idx := 1; first_ins := [Scenario.P] |} Scenario.P 1%nat
             Scenario.V2 (Scenario.fresh 32)).
    + unfold slot_of. split; [exact Hb1|]. split; [exact HP|]. split; [simpl; lia|].
      split; reflexivity.
    + left. split; [exact HrP|exact Hun].
Defined.

(** * Further properties of the usages code *)

(** ** Marks and queries together *)

(** X1: A value marked for deopt, or for a handler, is reported as such and as
    used, and is never reported as used once; the mark leaves the count of
    usages and the answer about the other mark as they were. *)
Theorem usages_mark_then_query (g : MVMSpeshGraph) (v : MVMSpeshOperand)
    (facts : MVMSpeshFacts) :
  MVM_spesh_get_facts g v = Some facts ->
  (exists g1,
     MVM_spesh_usages_add_for_deopt_by_reg g v = Some g1 /\
     MVM_spesh_usages_is_used_by_deopt g1 v = Some 1 /\
     MVM_spesh_usages_is_used g1 v = Some 1 /\
     MVM_spesh_usages_used_once g1 v = Some 0 /\
     MVM_spesh_usages_count g1 v = MVM_spesh_usages_count g v /\
     MVM_spesh_usages_is_used_by_handler g1 v = MVM_spesh_usages_is_used_by_handler g v) /\
  (exists g2,
     MVM_spesh_usages_add_for_handler_by_reg g v = Some g2 /\
     MVM_spesh_usages_is_used_by_handler g2 v = Some 1 /\
     MVM_spesh_usages_is_used g2 v = Some 1 /\
     MVM_spesh_usages_used_once g2 v = Some 0 /\
     MVM_spesh_usages_count g2 v = MVM_spesh_usages_count g v /\
     MVM_spesh_usages_is_used_by_deopt g2 v = MVM_spesh_usages_is_used_by_deopt g v).
Proof.
  intros Hf. assert (Hs : is_Some (MVM_spesh_get_facts g v)) by (by rewrite Hf).
  split.
  - unfold MVM_spesh_usages_add_for_deopt_by_reg. rewrite Hf. simpl.
    eexists. split; [reflexivity|].
    unfold MVM_spesh_usages_is_used_by_deopt, MVM_spesh_usages_is_used,
      MVM_spesh_usages_used_once, MVM_spesh_usages_count,
      MVM_spesh_usages_is_used_by_handler.
    rewrite (get_facts_put_same g v _ Hs), Hf. simpl.
    by repeat split.
  - unfold MVM_spesh_usages_add_for_handler_by_reg. rewrite Hf. simpl.
    eexists. split; [reflexivity|].
    unfold MVM_spesh_usages_is_used_by_deopt, MVM_spesh_usages_is_used,
      MVM_spesh_usages_used_once, MVM_spesh_usages_count,
      MVM_spesh_usages_is_used_by_handler.
    rewrite (get_facts_put_same g v _ Hs), Hf. simpl.
    repeat split; by destruct (deopt_required (usage facts)).
Qed.

Lemma usages_mark_then_query_witness :
  MVM_spesh_get_facts Scenario.built Scenario.V2 = Some (Scenario.fresh 32) /\
  exists g1,
    MVM_spesh_usages_add_for_deopt_by_reg Scenario.built Scenario.V2 = Some g1 /\
    MVM_spesh_usages_is_used g1 Scenario.V2 = Some 1 /\
    MVM_spesh_usages_count g1 Scenario.V2 = Some 0.
Proof.
  split; [reflexivity|].
  destruct (usages_mark_then_query Scenario.built Scenario.V2 _ eq_refl)
    as ((g1 & Hg1 & _ & Hused & _ & Hcount & _) & _).
  exists g1. split; [exact Hg1|]. split; [exact Hused|]. rewrite Hcount. reflexivity.
Defined.

(** X2: The five queries agree with one another: a value used once is used, has
    a count of 1 and carries no mark; a value that is not used has a count
    of 0, is not used once and carries no mark; a marked value is used and
    is not used once.  Every answer but the count is 0 or 1. *)
Theorem usages_queries_agree (g : MVMSpeshGraph) (v : MVMSpeshOperand) (facts : MVMSpeshFacts) :
  MVM_spesh_get_facts g v = Some facts ->
  exists used by_deopt by_handler once count,
    MVM_spesh_usages_is_used g v = Some used /\
    MVM_spesh_usages_is_used_by_deopt g v = Some by_deopt /\
    MVM_spesh_usages_is_used_by_handler g v = Some by_handler /\
    MVM_spesh_usages_used_once g v = Some once /\
    MVM_spesh_usages_count g v = Some count /\
    (once <> 0 -> used = 1 /\ count = 1 /\ by_deopt = 0 /\ by_handler = 0) /\
    (used = 0 -> count = 0 /\ once = 0 /\ by_deopt = 0 /\ by_handler = 0) /\
    (by_deopt <> 0 \/ by_handler <> 0 -> used = 1 /\ once = 0) /\
    (used = 0 \/ used = 1) /\ (once = 0 \/ once = 1) /\
    (by_deopt = 0 \/ by_deopt = 1) /\ (by_handler = 0 \/ by_handler = 1).
Proof.
  intros Hf.
  unfold MVM_spesh_usages_is_used_by_deopt, MVM_spesh_usages_is_used,
    MVM_spesh_usages_used_once, MVM_spesh_usages_count,
    MVM_spesh_usages_is_used_by_handler.
  rewrite Hf. simpl. do 5 eexists. do 5 (split; [reflexivity|]).
  destruct facts as [w [l d h]]; simpl.
  destruct d, h, l as [|e [|e' l]]; simpl; intuition lia.
Qed.

Lemma usages_queries_agree_witness :
  MVM_spesh_get_facts Scenario.one_entry_short Scenario.V1
  = Some (set_users [{| user := 32 |}] (Scenario.fresh 16)) /\
  MVM_spesh_usages_used_once Scenario.one_entry_short Scenario.V1 = Some 1 /\
  MVM_spesh_usages_is_used Scenario.one_entry_short Scenario.V1 = Some 1 /\
  MVM_spesh_usages_count Scenario.one_entry_short Scenario.V1 = Some 1.
Proof.
  split; [reflexivity|].
  destruct (usages_queries_agree Scenario.one_entry_short Scenario.V1 _ eq_refl)
    as (used & d & h & once & count & Hu & _ & _ & Ho & Hc & Honce & _).
  assert (Hone : once = 1) by (vm_compute in Ho; congruence).
  destruct Honce as (-> & -> & _); [lia|]. subst once. by repeat split.
Defined.

(** X3: The count of usages is the length of the chain reduced modulo [2^32],
    the width of the counter. *)
Theorem usages_count_wraps (g : MVMSpeshGraph) (v : MVMSpeshOperand) (facts : MVMSpeshFacts) :
  MVM_spesh_get_facts g v = Some facts ->
  MVM_spesh_usages_count g v = Some (Z.of_nat (length (users (usage facts))) mod 2 ^ 32).
Proof.
  intros Hf. unfold MVM_spesh_usages_count. rewrite Hf. simpl.
  by rewrite usages_count_loop_length by lia.
Qed.

Lemma usages_count_wraps_witness :
  MVM_spesh_get_facts Scenario.built Scenario.V1
  = Some (set_users [{| user := 32 |}; {| user := 32 |}] (Scenario.fresh 16)) /\
  MVM_spesh_usages_count Scenario.built Scenario.V1 = Some (2 mod 2 ^ 32).
Proof.
  split; [reflexivity|].
  exact (usages_count_wraps Scenario.built Scenario.V1 _ eq_refl).
Defined.

(** ** Removal together with the other operations *)

(** What [MVM_spesh_usages_delete] leaves, by cases on the chain. *)
Lemma usages_delete_cases facts by_ins :
  (Forall (fun e => user e <> ins_addr by_ins) (users (usage facts)) /\
   MVM_spesh_usages_delete facts by_ins = Oops (delete_diag by_ins) facts) \/
  (exists skipped c next,
     users (usage facts) = skipped ++ c :: next /\ user c = ins_addr by_ins /\
     Forall (fun e => user e <> ins_addr by_ins) skipped /\
     MVM_spesh_usages_delete facts by_ins = Returns (set_users (skipped ++ next) facts)).
Proof.
  unfold MVM_spesh_usages_delete.
  destruct (chain_first_entry (ins_addr by_ins) (users (usage facts)))
    as [Hno|(skipped & c & next & Heq & Hc & Hs)].
  - left. split; [done|]. by apply usages_delete_loop_missing.
  - right. exists skipped, c, next. repeat split; try done.
    rewrite Heq. by rewrite (usages_delete_loop_found facts by_ins skipped c next Hs Hc []).
Qed.

(** X4: Registering one instruction and removing another one can be done in
    either order: the removal finds, or misses, the same entry, and the
    diagnostic of a miss is the same. *)
Theorem usages_add_delete_commute (facts : MVMSpeshFacts) (by_ins other : MVMSpeshIns) :
  ins_addr other <> ins_addr by_ins ->
  MVM_spesh_usages_delete (MVM_spesh_usages_add facts other) by_ins
  = match MVM_spesh_usages_delete facts by_ins with
    | Returns facts' => Returns (MVM_spesh_usages_add facts' other)
    | Oops d facts' => Oops d (MVM_spesh_usages_add facts' other)
    end.
Proof.
  intros Hne.
  unfold MVM_spesh_usages_delete at 1. unfold MVM_spesh_usages_add at 2. simpl.
  apply N.eqb_neq in Hne. rewrite Hne.
  destruct (usages_delete_cases facts by_ins)
    as [[Hno ->]|(skipped & c & next & Heq & Hc & Hs & ->)].
  - by rewrite (usages_delete_loop_missing _ _ _ Hno).
  - rewrite Heq.
    by rewrite (usages_delete_loop_found _ by_ins skipped c next Hs Hc).
Qed.

Lemma usages_add_delete_commute_witness :
  ins_addr Scenario.I3 <> ins_addr Scenario.I2 /\
  MVM_spesh_usages_delete
    (MVM_spesh_usages_add (set_users [{| user := 32 |}] (Scenario.fresh 16)) Scenario.I3)
    Scenario.I2
  = Returns (MVM_spesh_usages_add (Scenario.fresh 16) Scenario.I3).
Proof.
  assert (Hne : ins_addr Scenario.I3 <> ins_addr Scenario.I2) by (simpl; lia).
  split; [exact Hne|].
  exact (usages_add_delete_commute (set_users [{| user := 32 |}] (Scenario.fresh 16))
           Scenario.I2 Scenario.I3 Hne).
Defined.

(** X5: A removal that returns lowers the count of usages of the value by one; a
    removal that is fatal leaves it.  The chain is taken to fit the
    counter. *)
Theorem usages_delete_count (g : MVMSpeshGraph) (v : MVMSpeshOperand) (facts : MVMSpeshFacts)
    (by_ins : MVMSpeshIns) :
  MVM_spesh_get_facts g v = Some facts ->
  Z.of_nat (length (users (usage facts))) < 2 ^ 32 ->
  exists out,
    MVM_spesh_usages_delete_by_reg g v by_ins = Some out /\
    MVM_spesh_usages_count g v = Some (Z.of_nat (length (users (usage facts)))) /\
    MVM_spesh_usages_count (final out) v
    = Some (match out with
            | Returns _ => Z.of_nat (length (users (usage facts))) - 1
            | Oops _ _ => Z.of_nat (length (users (usage facts)))
            end).
Proof.
  intros Hf Hlen. assert (Hs : is_Some (MVM_spesh_get_facts g v)) by (by rewrite Hf).
  unfold MVM_spesh_usages_delete_by_reg. rewrite Hf. simpl.
  rewrite (usages_count_length g v facts Hf Hlen).
  destruct (usages_delete_cases facts by_ins)
    as [[Hno ->]|(skipped & c & next & Heq & Hc & Hs' & ->)].
  - eexists. split; [reflexivity|]. split; [done|]. simpl.
    rewrite (put_facts_same _ _ _ Hf). by apply usages_count_length.
  - eexists. split; [reflexivity|]. split; [done|]. simpl.
    erewrite usages_count_length; [|by apply get_facts_put_same|].
    + simpl. f_equal. rewrite Heq, !length_app, length_cons. lia.
    + simpl. rewrite Heq, !length_app, length_cons in Hlen. rewrite length_app. lia.
Qed.

Lemma usages_delete_count_witness :
  MVM_spesh_get_facts Scenario.built Scenario.V1
  = Some (set_users [{| user := 32 |}; {| user := 32 |}] (Scenario.fresh 16)) /\
  exists g',
    MVM_spesh_usages_delete_by_reg Scenario.built Scenario.V1 Scenario.I2
    = Some (Returns g') /\
    MVM_spesh_usages_count g' Scenario.V1 = Some 1.
Proof.
  split; [reflexivity|].
  destruct (usages_delete_count Scenario.built Scenario.V1 _ Scenario.I2 eq_refl
              ltac:(simpl; lia)) as (out & Hout & _ & Hcount).
  vm_compute in Hout. injection Hout as <-.
  eexists. split; [reflexivity|]. exact Hcount.
Defined.

(** ** What the calls leave alone *)

Lemma put_facts_frame g u fu x :
  MVM_spesh_get_facts g u = Some fu -> writer x = writer fu ->
  entry (put_facts g u x) = entry g /\
  (forall v, v <> u -> MVM_spesh_get_facts (put_facts g u x) v = MVM_spesh_get_facts g v) /\
  (forall v f, MVM_spesh_get_facts g v = Some f ->
     exists f', MVM_spesh_get_facts (put_facts g u x) v = Some f' /\ writer f' = writer f).
Proof.
  intros Hu Hw. split; [done|]. split.
  - intros v Hne. by apply get_facts_put_other.
  - intros v f Hv. destruct (decide (u = v)) as [<-|Hne].
    + exists x. rewrite get_facts_put_same by (by rewrite Hu). split; [done|]. congruence.
    + exists f. by rewrite get_facts_put_other.
Qed.

Lemma run_call_frame c g out :
  run_call c g = Some out ->
  entry (final out) = entry g /\
  (forall v, v <> call_target c ->
     MVM_spesh_get_facts (final out) v = MVM_spesh_get_facts g v) /\
  (forall v f, MVM_spesh_get_facts g v = Some f ->
     exists f', MVM_spesh_get_facts (final out) v = Some f' /\ writer f' = writer f).
Proof.
  assert (Hquery : forall (r : option Z), r ≫= (fun _ => Some (Returns g)) = Some out ->
            final out = g).
  { intros [z|] Hr; simpl in Hr; [by injection Hr as <-|done]. }
  assert (Hsame : entry g = entry g /\
            (forall v, v <> call_target c -> MVM_spesh_get_facts g v = MVM_spesh_get_facts g v) /\
            (forall v f, MVM_spesh_get_facts g v = Some f ->
               exists f', MVM_spesh_get_facts g v = Some f' /\ writer f' = writer f)).
  { split; [done|]. split; [done|]. intros v f Hv. by exists f. }
  destruct c as [used by_ins|used by_ins|used|used|check|check|check|check|check];
    simpl in *; intros Hrun;
    try (rewrite (Hquery _ Hrun); exact Hsame).
  - unfold MVM_spesh_usages_add_by_reg in Hrun.
    destruct (MVM_spesh_get_facts g used) as [fu|] eqn:Hu; [|done].
    simpl in Hrun. injection Hrun as <-. simpl.
    by apply (put_facts_frame g used fu).
  - unfold MVM_spesh_usages_delete_by_reg in Hrun.
    destruct (MVM_spesh_get_facts g used) as [fu|] eqn:Hu; [|done]. simpl in Hrun.
    destruct (usages_delete_final fu by_ins) as [chain Hfinal].
    destruct (MVM_spesh_usages_delete fu by_ins) as [fu'|d fu'];
      simpl in Hfinal; subst fu'; injection Hrun as <-; simpl;
      by apply (put_facts_frame g used fu).
  - unfold MVM_spesh_usages_add_for_deopt_by_reg in Hrun.
    destruct (MVM_spesh_get_facts g used) as [fu|] eqn:Hu; [|done].
    simpl in Hrun. injection Hrun as <-. simpl.
    by apply (put_facts_frame g used fu).
  - unfold MVM_spesh_usages_add_for_handler_by_reg in Hrun.
    destruct (MVM_spesh_get_facts g used) as [fu|] eqn:Hu; [|done].
    simpl in Hrun. injection Hrun as <-. simpl.
    by apply (put_facts_frame g used fu).
Qed.

(** X6: Whatever calls are made, and whether or not one of them is fatal, the
    instruction stream and the writer of every value stay as they were, and
    the Facts entry of a value that no call names stays as it was. *)
Theorem usages_calls_frame (cs : list usage_call) (g : MVMSpeshGraph)
    (out : outcome MVMSpeshGraph) :
  run_calls cs g = Some out ->
  entry (final out) = entry g /\
  (forall v f, MVM_spesh_get_facts g v = Some f ->
     exists f', MVM_spesh_get_facts (final out) v = Some f' /\ writer f' = writer f) /\
  (forall v, v ∉ call_target <$> cs ->
     MVM_spesh_get_facts (final out) v = MVM_spesh_get_facts g v).
Proof.
  revert g out. induction cs as [|c cs IH]; intros g out Hrun; simpl in Hrun.
  - injection Hrun as <-. simpl. split; [done|]. split; [|done].
    intros v f Hv. by exists f.
  - destruct (run_call c g) as [[g'|d g']|] eqn:Hc; [| |done].
    + destruct (run_call_frame _ _ _ Hc) as (He1 & Ho1 & Hw1). simpl in He1, Ho1, Hw1.
      destruct (IH _ _ Hrun) as (He & Hw & Ho).
      split; [congruence|]. split.
      * intros v f Hv. destruct (Hw1 v f Hv) as (f1 & Hv1 & Hwr1).
        destruct (Hw v f1 Hv1) as (f' & Hv' & Hwr'). exists f'. split; [done|congruence].
      * intros v Hv. rewrite fmap_cons, not_elem_of_cons in Hv. destruct Hv as [Hne Hv].
        rewrite (Ho v Hv). by apply Ho1.
    + injection Hrun as <-. destruct (run_call_frame _ _ _ Hc) as (He1 & Ho1 & Hw1).
      split; [done|]. split; [done|].
      intros v Hv. rewrite fmap_cons, not_elem_of_cons in Hv. destruct Hv as [Hne Hv].
      by apply Ho1.
Qed.

Lemma usages_calls_frame_witness :
  run_calls [Call_add Scenario.V1 Scenario.I3; Call_delete Scenario.V1 Scenario.I1]
    Scenario.built
  = Some (Oops "Spesh: instruction const_i64 missing from define-use chain"
            (put_facts Scenario.built Scenario.V1
               (set_users [{| user := 48 |}; {| user := 32 |}; {| user := 32 |}]
                  (Scenario.fresh 16)))) /\
  MVM_spesh_get_facts
    (put_facts Scenario.built Scenario.V1
       (set_users [{| user := 48 |}; {| user := 32 |}; {| user := 32 |}] (Scenario.fresh 16)))
    Scenario.V2
  = MVM_spesh_get_facts Scenario.built Scenario.V2.
Proof.
  split; [reflexivity|].
  destruct (usages_calls_frame
              [Call_add Scenario.V1 Scenario.I3; Call_delete Scenario.V1 Scenario.I1]
              Scenario.built _ eq_refl) as (_ & _ & Hother).
  apply Hother. simpl. rewrite !not_elem_of_cons. repeat split; try discriminate.
  apply not_elem_of_nil.
Defined.

(** ** The order of the chain *)

Lemma entry_of_user (c c' : MVMSpeshUseChainEntry) : user c = user c' -> c = c'.
Proof. destruct c, c'; simpl. by intros ->. Qed.

Lemma entries_of_perm a chain chain' :
  chain ≡ₚ chain' -> entries_of a chain = entries_of a chain'.
Proof. intros Hp. unfold entries_of. by rewrite Hp. Qed.

(** X7: The answers of the queries do not depend on the order of the chain, and
    neither does a removal: on two chains with the same entries in another
    order it returns in both cases or is fatal in both with the same
    diagnostic, and the chains it leaves have the same entries again. *)
Theorem usages_order_free (g : MVMSpeshGraph) (v : MVMSpeshOperand) (facts : MVMSpeshFacts)
    (chain' : list MVMSpeshUseChainEntry) (by_ins : MVMSpeshIns) :
  MVM_spesh_get_facts g v = Some facts ->
  users (usage facts) ≡ₚ chain' ->
  MVM_spesh_usages_is_used (put_facts g v (set_users chain' facts)) v
  = MVM_spesh_usages_is_used g v /\
  MVM_spesh_usages_used_once (put_facts g v (set_users chain' facts)) v
  = MVM_spesh_usages_used_once g v /\
  MVM_spesh_usages_count (put_facts g v (set_users chain' facts)) v
  = MVM_spesh_usages_count g v /\
  diagnostic (MVM_spesh_usages_delete (set_users chain' facts) by_ins)
  = diagnostic (MVM_spesh_usages_delete facts by_ins) /\
  users (usage (final (MVM_spesh_usages_delete (set_users chain' facts) by_ins)))
  ≡ₚ users (usage (final (MVM_spesh_usages_delete facts by_ins))).
Proof.
  intros Hf Hp. assert (Hs : is_Some (MVM_spesh_get_facts g v)) by (by rewrite Hf).
  assert (Hlen := Permutation_length Hp).
  unfold MVM_spesh_usages_is_used, MVM_spesh_usages_used_once, MVM_spesh_usages_count.
  rewrite (get_facts_put_same g v _ Hs), Hf. simpl.
  split; [|split; [|split]].
  - destruct (users (usage facts)), chain'; simpl in *; done.
  - destruct (users (usage facts)) as [|? [|? ?]], chain' as [|? [|? ?]]; simpl in *; done.
  - rewrite !usages_count_loop_length by lia. by rewrite Hlen.
  - destruct (usages_delete_cases facts by_ins)
      as [[Hno ->]|(skipped & c & next & Heq & Hc & Hsk & ->)];
    destruct (usages_delete_cases (set_users chain' facts) by_ins)
      as [[Hno' ->]|(skipped' & c' & next' & Heq' & Hc' & Hsk' & ->)]; simpl in *.
    + done.
    + exfalso. rewrite Forall_forall in Hno. apply (Hno c'); [|done].
      rewrite Hp, Heq'. apply elem_of_app. right. apply elem_of_cons. by left.
    + exfalso. rewrite Forall_forall in Hno'. apply (Hno' c); [|done].
      rewrite <- Hp, Heq. apply elem_of_app. right. apply elem_of_cons. by left.
    + split; [done|].
      assert (c' = c) as -> by (apply entry_of_user; congruence).
      apply (Permutation_cons_inv (a := c)).
      rewrite !Permutation_middle, <- Heq, <- Heq'. by symmetry.
Qed.

Lemma usages_order_free_witness :
  MVM_spesh_get_facts Scenario.merged Scenario.V1
  = Some (set_users [{| user := 64 |}; {| user := 32 |}; {| user := 32 |}] (Scenario.fresh 16)) /\
  [{| user := 64 |}; {| user := 32 |}; {| user := 32 |}]
  ≡ₚ [{| user := 32 |}; {| user := 64 |}; {| user := 32 |}] /\
  MVM_spesh_usages_count
    (put_facts Scenario.merged Scenario.V1
       (set_users [{| user := 32 |}; {| user := 64 |}; {| user := 32 |}] (Scenario.fresh 16)))
    Scenario.V1
  = MVM_spesh_usages_count Scenario.merged Scenario.V1.
Proof.
  assert (Hp : [{| user := 64 |}; {| user := 32 |}; {| user := 32 |}]
               ≡ₚ [{| user := 32 |}; {| user := 64 |}; {| user := 32 |}])
    by apply perm_swap.
  split; [reflexivity|]. split; [exact Hp|].
  destruct (usages_order_free Scenario.merged Scenario.V1 _ _ Scenario.P eq_refl Hp)
    as (_ & _ & Hcount & _).
  exact Hcount.
Defined.

(** ** The checker and the operations *)

Lemma entries_of_pos a chain :
  (0 < entries_of a chain)%nat <-> Exists (fun e => user e = a) chain.
Proof.
  split; [|apply entries_of_some].
  intros Hpos. apply Exists_exists.
  unfold entries_of in Hpos.
  destruct (filter (fun e => user e = a) chain) as [|e rest] eqn:Hfilter; [simpl in Hpos; lia|].
  assert (He : e ∈ filter (fun e => user e = a) chain).
  { rewrite Hfilter. apply elem_of_cons. by left. }
  apply list_elem_of_filter in He as [Hu He]. by exists e.
Qed.

Lemma entries_of_app a l1 l2 :
  entries_of a (l1 ++ l2) = (entries_of a l1 + entries_of a l2)%nat.
Proof. unfold entries_of. by rewrite filter_app, length_app. Qed.

Lemma entries_of_cons a c l :
  entries_of a (c :: l)
  = ((if decide (user c = a) then 1 else 0) + entries_of a l)%nat.
Proof. unfold entries_of. rewrite filter_cons. by destruct (decide (user c = a)). Qed.

Lemma each_oops_first {A : Type} (body : A -> option (outcome unit)) l d :
  each body l = Some (Oops d tt) ->
  exists l1 x l2,
    l = l1 ++ x :: l2 /\ Forall (fun y => body y = Some (Returns tt)) l1 /\
    body x = Some (Oops d tt).
Proof.
  induction l as [|x l IH]; simpl; [done|].
  destruct (body x) as [[[]|d' []]|] eqn:Hx; intros H; [| |done].
  - destruct (IH H) as (l1 & y & l2 & -> & Hl1 & Hy).
    exists (x :: l1), y, l2. split; [done|]. split; [by constructor|done].
  - injection H as ->. exists [], x, l. by repeat split.
Qed.

Lemma put_facts_cover g u fu x :
  MVM_spesh_get_facts g u = Some fu -> writer x = writer fu ->
  (forall a, (0 < entries_of a (users (usage fu)))%nat ->
             (0 < entries_of a (users (usage x)))%nat) ->
  chains_cover g (put_facts g u x).
Proof.
  intros Hu Hw Hin. split; [done|]. intros o facts Ho.
  destruct (decide (u = o)) as [<-|Hne].
  - exists x. rewrite get_facts_put_same by (by rewrite Hu).
    assert (facts = fu) as -> by congruence. by repeat split.
  - exists facts. rewrite get_facts_put_other by done. by repeat split.
Qed.

Section CheckerFurther.

Variable MVM_SSA_PHI : Z.
Variable MVM_operand_rw_mask : Z.
Variable MVM_operand_read_reg : Z.
Variable MVM_operand_write_reg : Z.
Variable MVM_spesh_dump : MVMSpeshGraph -> string.

Local Abbreviation phi := (is_phi_ins MVM_SSA_PHI).
Local Abbreviation reads := (reads_operand MVM_operand_rw_mask MVM_operand_read_reg).
Local Abbreviation writes := (writes_operand MVM_operand_rw_mask MVM_operand_write_reg).
Local Abbreviation check_op :=
  (check_operand MVM_operand_rw_mask MVM_operand_read_reg MVM_operand_write_reg MVM_spesh_dump).
Local Abbreviation check_i :=
  (check_ins MVM_SSA_PHI MVM_operand_rw_mask MVM_operand_read_reg MVM_operand_write_reg
     MVM_spesh_dump).
Local Abbreviation check_b :=
  (check_bb MVM_SSA_PHI MVM_operand_rw_mask MVM_operand_read_reg MVM_operand_write_reg
     MVM_spesh_dump).
Local Abbreviation missing :=
  (missing_reader MVM_SSA_PHI MVM_operand_rw_mask MVM_operand_read_reg).
Local Abbreviation wrong :=
  (wrong_writer MVM_SSA_PHI MVM_operand_rw_mask MVM_operand_read_reg MVM_operand_write_reg).
Local Abbreviation check :=
  (MVM_spesh_usages_check MVM_SSA_PHI MVM_operand_rw_mask MVM_operand_read_reg
     MVM_operand_write_reg MVM_spesh_dump).
Local Abbreviation in_bounds :=
  (addressable MVM_SSA_PHI MVM_operand_rw_mask MVM_operand_read_reg MVM_operand_write_reg).

Lemma check_operand_cover g g' cur_bb cur_ins is_phi i :
  chains_cover g g' ->
  check_op g cur_bb cur_ins is_phi i = Some (Returns tt) ->
  check_op g' cur_bb cur_ins is_phi i = Some (Returns tt).
Proof.
  intros [_ Hcover]. unfold check_operand.
  destruct (reads is_phi cur_ins i) as [[|]|]; simpl; [| |done].
  - destruct (ins_operands cur_ins !! i) as [o|]; simpl; [|done].
    destruct (MVM_spesh_get_facts g o) as [facts|] eqn:Hf; simpl; [|done].
    destruct (Hcover o facts Hf) as (facts' & -> & _ & Hin). simpl.
    destruct (find_user cur_ins (users (usage facts))) eqn:Hfound; simpl; [|done].
    intros _. apply find_user_true, entries_of_pos, Hin, entries_of_pos, find_user_true in Hfound.
    by rewrite Hfound.
  - destruct (writes is_phi cur_ins i) as [[|]|]; simpl; [|done|done].
    destruct (ins_operands cur_ins !! i) as [o|]; simpl; [|done].
    destruct (MVM_spesh_get_facts g o) as [facts|] eqn:Hf; simpl; [|done].
    destruct (Hcover o facts Hf) as (facts' & -> & Hw & _). simpl. rewrite Hw.
    by destruct (writer facts =? ins_addr cur_ins)%N.
Qed.

Lemma check_cover g g' :
  chains_cover g g' -> check g = Some (Returns tt) -> check g' = Some (Returns tt).
Proof.
  intros Hcover. assert (He := proj1 Hcover).
  unfold MVM_spesh_usages_check, check_bb, check_ins. cbv zeta.
  rewrite He, !each_returns, !Forall_forall. intros Hret cur_bb Hbb.
  specialize (Hret cur_bb Hbb). rewrite each_returns, Forall_forall in Hret |- *.
  intros cur_ins Hins. specialize (Hret cur_ins Hins).
  rewrite each_returns, Forall_forall in Hret |- *.
  intros i Hi. by apply (check_operand_cover g g'), Hret.
Qed.



Lemma check_operand_returns_write g cur_bb cur_ins i o :
  check_op g cur_bb cur_ins (phi cur_ins) i = Some (Returns tt) ->
  reads (phi cur_ins) cur_ins i = Some false ->
  writes (phi cur_ins) cur_ins i = Some true ->
  ins_operands cur_ins !! i = Some o ->
  exists facts, MVM_spesh_get_facts g o = Some facts /\ writer facts = ins_addr cur_ins.
Proof.
  unfold check_operand. intros Hret Hr Hw Ho. rewrite Hr in Hret. simpl in Hret.
  rewrite Hw in Hret. simpl in Hret. rewrite Ho in Hret. simpl in Hret.
  destruct (MVM_spesh_get_facts g o) as [facts|]; simpl in Hret; [|done].
  exists facts. split; [done|].
  by destruct (N.eqb_spec (writer facts) (ins_addr cur_ins)).
Qed.

Lemma check_slot_returns g cur_bb cur_ins i :
  check g = Some (Returns tt) ->
  cur_bb ∈ entry g -> cur_ins ∈ first_ins cur_bb ->
  (i < N.to_nat (num_operands (info cur_ins)))%nat ->
  check_op g cur_bb cur_ins (phi cur_ins) i = Some (Returns tt).
Proof.
  intros Hret Hbb Hins Hi. unfold MVM_spesh_usages_check in Hret.
  rewrite each_returns, Forall_forall in Hret. specialize (Hret cur_bb Hbb).
  unfold check_bb in Hret. rewrite each_returns, Forall_forall in Hret.
  specialize (Hret cur_ins Hins). unfold check_ins in Hret. cbv zeta in Hret.
  rewrite each_returns, Forall_forall in Hret. apply Hret, elem_of_seq. lia.
Qed.

Lemma check_operand_returns_sound g cur_bb cur_ins i :
  check_op g cur_bb cur_ins (phi cur_ins) i = Some (Returns tt) ->
  slot_sound MVM_SSA_PHI MVM_operand_rw_mask MVM_operand_read_reg MVM_operand_write_reg
    g cur_ins i.
Proof.
  intros Hret o facts Ho Hf. unfold check_operand in Hret.
  split.
  - intros [Hr Hno]. rewrite Hr in Hret. simpl in Hret. rewrite Ho in Hret. simpl in Hret.
    rewrite Hf in Hret. simpl in Hret. apply find_user_false in Hno. by rewrite Hno in Hret.
  - intros (Hr & Hw & Hne). rewrite Hr in Hret. simpl in Hret. rewrite Hw in Hret.
    simpl in Hret. rewrite Ho in Hret. simpl in Hret. rewrite Hf in Hret. simpl in Hret.
    apply N.eqb_neq in Hne. by rewrite Hne in Hret.
Qed.

Lemma check_ins_returns_sound g cur_bb cur_ins :
  check_i g cur_bb cur_ins = Some (Returns tt) ->
  ins_sound MVM_SSA_PHI MVM_operand_rw_mask MVM_operand_read_reg MVM_operand_write_reg
    g cur_ins.
Proof.
  unfold check_ins. cbv zeta. rewrite each_returns, Forall_forall. intros Hret i Hi.
  apply (check_operand_returns_sound g cur_bb). apply Hret, elem_of_seq. lia.
Qed.

Lemma seq_split_at n l1 i l2 :
  seq 0 n = l1 ++ i :: l2 ->
  (i < n)%nat /\ forall j, (j < i)%nat -> j ∈ l1.
Proof.
  intros Heq.
  assert (Hi : seq 0 n !! length l1 = Some i) by (rewrite Heq; apply list_lookup_middle; done).
  apply lookup_seq in Hi as [Hi Hlt]. simpl in Hi. subst i. split; [done|].
  intros j Hj. apply (list_elem_of_lookup_2 _ j).
  rewrite <- (lookup_app_l l1 (length l1 :: l2)) by done.
  rewrite <- Heq. apply lookup_seq. split; [done|lia].
Qed.

(** X8: When the checker returns, every value written by a slot of the
    instruction stream has the writing instruction as its writer; so no
    value is written by two instructions of the stream. *)
Theorem usages_check_finds_writers (g : MVMSpeshGraph) :
  check g = Some (Returns tt) ->
  (forall cur_bb cur_ins i o,
     cur_bb ∈ entry g -> cur_ins ∈ first_ins cur_bb ->
     (i < N.to_nat (num_operands (info cur_ins)))%nat ->
     reads (phi cur_ins) cur_ins i = Some false ->
     writes (phi cur_ins) cur_ins i = Some true ->
     ins_operands cur_ins !! i = Some o ->
     exists facts, MVM_spesh_get_facts g o = Some facts /\ writer facts = ins_addr cur_ins) /\
  (forall bb1 ins1 i1 bb2 ins2 i2 o,
     bb1 ∈ entry g -> ins1 ∈ first_ins bb1 ->
     (i1 < N.to_nat (num_operands (info ins1)))%nat ->
     reads (phi ins1) ins1 i1 = Some false -> writes (phi ins1) ins1 i1 = Some true ->
     ins_operands ins1 !! i1 = Some o ->
     bb2 ∈ entry g -> ins2 ∈ first_ins bb2 ->
     (i2 < N.to_nat (num_operands (info ins2)))%nat ->
     reads (phi ins2) ins2 i2 = Some false -> writes (phi ins2) ins2 i2 = Some true ->
     ins_operands ins2 !! i2 = Some o ->
     ins_addr ins1 = ins_addr ins2).
Proof.
  intros Hret.
  assert (Hw : forall cur_bb cur_ins i o,
     cur_bb ∈ entry g -> cur_ins ∈ first_ins cur_bb ->
     (i < N.to_nat (num_operands (info cur_ins)))%nat ->
     reads (phi cur_ins) cur_ins i = Some false ->
     writes (phi cur_ins) cur_ins i = Some true ->
     ins_operands cur_ins !! i = Some o ->
     exists facts, MVM_spesh_get_facts g o = Some facts /\ writer facts = ins_addr cur_ins).
  { intros cur_bb cur_ins i o Hbb Hins Hi Hr Hwr Ho.
    apply (check_operand_returns_write g cur_bb cur_ins i o); try done.
    by apply check_slot_returns. }
  split; [exact Hw|].
  intros bb1 ins1 i1 bb2 ins2 i2 o Hb1 Hn1 Hi1 Hr1 Hw1 Ho1 Hb2 Hn2 Hi2 Hr2 Hw2 Ho2.
  destruct (Hw bb1 ins1 i1 o Hb1 Hn1 Hi1 Hr1 Hw1 Ho1) as (f1 & Hf1 & <-).
  destruct (Hw bb2 ins2 i2 o Hb2 Hn2 Hi2 Hr2 Hw2 Ho2) as (f2 & Hf2 & <-).
  congruence.
Qed.

(** X9: The diagnostic of the checker is about the first wrong slot in the order
    of the traversal: no slot of an earlier block, of an earlier instruction
    of the block, or earlier in the instruction, is wrong. *)
Theorem usages_check_reports_first (g : MVMSpeshGraph) (d : string) :
  check g = Some (Oops d tt) ->
  exists bbs1 cur_bb bbs2 inss1 cur_ins inss2 i o facts,
    entry g = bbs1 ++ cur_bb :: bbs2 /\
    first_ins cur_bb = inss1 ++ cur_ins :: inss2 /\
    (i < N.to_nat (num_operands (info cur_ins)))%nat /\
    ins_operands cur_ins !! i = Some o /\ MVM_spesh_get_facts g o = Some facts /\
    ((missing cur_ins i facts /\
      d = reader_diag MVM_spesh_dump g cur_bb cur_ins (phi cur_ins) o) \/
     (wrong cur_ins i facts /\
      d = writer_diag MVM_spesh_dump g cur_bb cur_ins (phi cur_ins) o)) /\
    (forall bb ins, bb ∈ bbs1 -> ins ∈ first_ins bb ->
       ins_sound MVM_SSA_PHI MVM_operand_rw_mask MVM_operand_read_reg MVM_operand_write_reg
         g ins) /\
    (forall ins, ins ∈ inss1 ->
       ins_sound MVM_SSA_PHI MVM_operand_rw_mask MVM_operand_read_reg MVM_operand_write_reg
         g ins) /\
    (forall j, (j < i)%nat ->
       slot_sound MVM_SSA_PHI MVM_operand_rw_mask MVM_operand_read_reg MVM_operand_write_reg
         g cur_ins j).
Proof.
  intros Hd. unfold MVM_spesh_usages_check in Hd.
  apply each_oops_first in Hd as (bbs1 & cur_bb & bbs2 & Hbbs & Hbbs1 & Hd).
  unfold check_bb in Hd.
  apply each_oops_first in Hd as (inss1 & cur_ins & inss2 & Hinss & Hinss1 & Hd).
  unfold check_ins in Hd. cbv zeta in Hd.
  apply each_oops_first in Hd as (is1 & i & is2 & His & His1 & Hd).
  apply seq_split_at in His as [Hi Hbefore].
  apply check_operand_oops in Hd as (o & facts & Ho & Hf & Hd).
  exists bbs1, cur_bb, bbs2, inss1, cur_ins, inss2, i, o, facts.
  do 5 (split; [done|]). split; [exact Hd|].
  rewrite Forall_forall in Hbbs1. rewrite Forall_forall in Hinss1.
  rewrite Forall_forall in His1. split; [|split].
  - intros bb ins Hbb Hins. specialize (Hbbs1 bb Hbb). unfold check_bb in Hbbs1.
    rewrite each_returns, Forall_forall in Hbbs1.
    by apply (check_ins_returns_sound g bb), Hbbs1.
  - intros ins Hins. by apply (check_ins_returns_sound g cur_bb), Hinss1.
  - intros j Hj. by apply (check_operand_returns_sound g cur_bb), His1, Hbefore.
Qed.

(** X10: Registering a usage and setting a mark never make a graph that the
    checker accepts into one that it rejects. *)
Theorem usages_check_kept_by_registration (g g' : MVMSpeshGraph) (used : MVMSpeshOperand)
    (by_ins : MVMSpeshIns) :
  check g = Some (Returns tt) ->
  MVM_spesh_usages_add_by_reg g used by_ins = Some g' \/
  MVM_spesh_usages_add_for_deopt_by_reg g used = Some g' \/
  MVM_spesh_usages_add_for_handler_by_reg g used = Some g' ->
  check g' = Some (Returns tt).
Proof.
  intros Hret Hcall. apply (check_cover g g'); [|done].
  unfold MVM_spesh_usages_add_by_reg, MVM_spesh_usages_add_for_deopt_by_reg,
    MVM_spesh_usages_add_for_handler_by_reg in Hcall.
  destruct (MVM_spesh_get_facts g used) as [fu|] eqn:Hu; simpl in Hcall;
    [|by destruct Hcall as [|[|]]].
  destruct Hcall as [[= <-]|[[= <-]|[= <-]]]; apply (put_facts_cover g used fu); try done.
  intros a Ha. simpl. rewrite entries_of_cons. lia.
Qed.


(** X12: A removal that takes away one of several entries of an instruction is
    not found by the checker: when the chain holds two entries or more for
    the instruction, the removal returns and a graph that the checker
    accepted is still accepted. *)
Theorem usages_check_misses_partial_removal (g : MVMSpeshGraph) (v : MVMSpeshOperand)
    (facts : MVMSpeshFacts) (by_ins : MVMSpeshIns) :
  check g = Some (Returns tt) ->
  MVM_spesh_get_facts g v = Some facts ->
  (2 <= entries_of (ins_addr by_ins) (users (usage facts)))%nat ->
  exists g',
    MVM_spesh_usages_delete_by_reg g v by_ins = Some (Returns g') /\
    check g' = Some (Returns tt).
Proof.
  intros Hret Hf Htwo.
  unfold MVM_spesh_usages_delete_by_reg. rewrite Hf. simpl.
  destruct (usages_delete_cases facts by_ins)
    as [[Hno _]|(skipped & c & next & Heq & Hc & Hsk & ->)].
  { apply entries_of_none in Hno. lia. }
  eexists. split; [reflexivity|].
  apply (check_cover g); [|done]. apply (put_facts_cover g v facts); [done|done|].
  intros a. simpl. rewrite Heq in Htwo |- *.
  rewrite !entries_of_app, !entries_of_cons in Htwo |- *.
  destruct (decide (user c = a)) as [Ha|Hne]; rewrite ?entries_of_app; [|lia].
  assert (a = ins_addr by_ins) as -> by congruence.
  rewrite decide_True in Htwo by done. lia.
Qed.

(** X13: The verdict of the checker does not depend on the order of a chain. *)
Theorem usages_check_order_free (g : MVMSpeshGraph) (v : MVMSpeshOperand)
    (facts : MVMSpeshFacts) (chain' : list MVMSpeshUseChainEntry) :
  MVM_spesh_get_facts g v = Some facts ->
  users (usage facts) ≡ₚ chain' ->
  check (put_facts g v (set_users chain' facts)) = Some (Returns tt) <->
  check g = Some (Returns tt).
Proof.
  intros Hf Hp. assert (Hs : is_Some (MVM_spesh_get_facts g v)) by (by rewrite Hf).
  split.
  - intros Hret.
    rewrite <- (put_facts_same g v facts Hf), <- (put_facts_put g v (set_users chain' facts)).
    apply (check_cover (put_facts g v (set_users chain' facts))); [|done].
    apply (put_facts_cover _ v (set_users chain' facts)).
    + by apply get_facts_put_same.
    + done.
    + intros a. simpl. by rewrite (entries_of_perm a _ _ Hp).
  - intros Hret. apply (check_cover g); [|done].
    apply (put_facts_cover g v facts); [done|done|].
    intros a. simpl. by rewrite (entries_of_perm a _ _ Hp).
Qed.

End CheckerFurther.

(** ** The further properties on the small graph *)

Lemma stream_block : {| idx := 0; first_ins := [Scenario.I1; Scenario.I2] |} ∈ Scenario.stream.
Proof. apply list_elem_of_singleton. reflexivity. Qed.

Lemma stream_I2 :
  Scenario.I2 ∈ first_ins {| idx := 0; first_ins := [Scenario.I1; Scenario.I2] |}.
Proof. apply elem_of_cons. right. apply list_elem_of_singleton. reflexivity. Qed.


Lemma usages_check_finds_writers_witness :
  scenario_check Scenario.built = Some (Returns tt) /\
  exists facts,
    MVM_spesh_get_facts Scenario.built Scenario.V2 = Some facts /\
    writer facts = ins_addr Scenario.I2.
Proof.
  split; [reflexivity|].
  destruct (usages_check_finds_writers Scenario.SSA_PHI Scenario.operand_rw_mask
              Scenario.operand_read_reg Scenario.operand_write_reg Scenario.dump
              Scenario.built eq_refl) as [Hwriter _].
  apply (Hwriter {| idx := 0; first_ins := [Scenario.I1; Scenario.I2] |} Scenario.I2 0%nat);
    [exact stream_block|exact stream_I2|simpl; lia|reflexivity|reflexivity|reflexivity].
Defined.

Lemma usages_check_reports_first_witness :
  scenario_check Scenario.unregistered
  = Some (Oops ("Malformed DU chain: reader add_i of 0(0) in BB 0 missing"
                +:+ newline +:+ "<dump>") tt) /\
  exists cur_ins i,
    (i < N.to_nat (num_operands (info cur_ins)))%nat /\
    forall j, (j < i)%nat ->
      slot_sound Scenario.SSA_PHI Scenario.operand_rw_mask Scenario.operand_read_reg
        Scenario.operand_write_reg Scenario.unregistered cur_ins j.
Proof.
  split; [reflexivity|].
  destruct (usages_check_reports_first Scenario.SSA_PHI Scenario.operand_rw_mask
              Scenario.operand_read_reg Scenario.operand_write_reg Scenario.dump
              Scenario.unregistered _ eq_refl)
    as (bbs1 & cur_bb & bbs2 & inss1 & cur_ins & inss2 & i & o & facts
        & _ & _ & Hi & _ & _ & _ & _ & _ & Hbefore).
  exists cur_ins, i. split; [exact Hi|exact Hbefore].
Defined.

Lemma usages_check_kept_by_registration_witness :
  scenario_check Scenario.built = Some (Returns tt) /\
  MVM_spesh_usages_add_by_reg Scenario.built Scenario.V2 Scenario.I3
  = Some (put_facts Scenario.built Scenario.V2
            (set_users [{| user := 48 |}] (Scenario.fresh 32))) /\
  scenario_check
    (put_facts Scenario.built Scenario.V2 (set_users [{| user := 48 |}] (Scenario.fresh 32)))
  = Some (Returns tt).
Proof.
  split; [reflexivity|]. split; [reflexivity|].
  apply (usages_check_kept_by_registration Scenario.SSA_PHI Scenario.operand_rw_mask
           Scenario.operand_read_reg Scenario.operand_write_reg Scenario.dump
           Scenario.built _ Scenario.V2 Scenario.I3 eq_refl).
  left. reflexivity.
Defined.


Lemma usages_check_misses_partial_removal_witness :
  scenario_check Scenario.built = Some (Returns tt) /\
  (2 <= entries_of (ins_addr Scenario.I2) [{| user := 32 |}; {| user := 32 |}])%nat /\
  exists g',
    MVM_spesh_usages_delete_by_reg Scenario.built Scenario.V1 Scenario.I2
    = Some (Returns g') /\
    scenario_check g' = Some (Returns tt).
Proof.
  assert (Htwo : (2 <= entries_of (ins_addr Scenario.I2)
                         [{| user := 32 |}; {| user := 32 |}])%nat)
    by (vm_compute; lia).
  split; [reflexivity|]. split; [exact Htwo|].
  exact (usages_check_misses_partial_removal Scenario.SSA_PHI Scenario.operand_rw_mask
           Scenario.operand_read_reg Scenario.operand_write_reg Scenario.dump
           Scenario.built Scenario.V1 _ Scenario.I2 eq_refl eq_refl Htwo).
Defined.

Lemma usages_check_order_free_witness :
  [{| user := 64 |}; {| user := 32 |}; {| user := 32 |}]
  ≡ₚ [{| user := 32 |}; {| user := 64 |}; {| user := 32 |}] /\
  scenario_check
    (put_facts Scenario.merged Scenario.V1
       (set_users [{| user := 32 |}; {| user := 64 |}; {| user := 32 |}] (Scenario.fresh 16)))
  = Some (Returns tt).
Proof.
  assert (Hp : [{| user := 64 |}; {| user := 32 |}; {| user := 32 |}]
               ≡ₚ [{| user := 32 |}; {| user := 64 |}; {| user := 32 |}])
    by apply perm_swap.
  split; [exact Hp|].
  apply (usages_check_order_free Scenario.SSA_PHI Scenario.operand_rw_mask
           Scenario.operand_read_reg Scenario.operand_write_reg Scenario.dump
           Scenario.merged Scenario.V1 _ _ eq_refl Hp).
  reflexivity.
Defined.

(** ** Registration, removal and the liveness answers *)

(** X14: After a registration the value is used; it is used once exactly when it
    was not used before the registration. *)
Theorem usages_add_then_queries (g : MVMSpeshGraph) (v : MVMSpeshOperand)
    (facts : MVMSpeshFacts) (by_ins : MVMSpeshIns) :
  MVM_spesh_get_facts g v = Some facts ->
  exists g',
    MVM_spesh_usages_add_by_reg g v by_ins = Some g' /\
    MVM_spesh_usages_is_used g' v = Some 1 /\
    (MVM_spesh_usages_used_once g' v = Some 1 <-> MVM_spesh_usages_is_used g v = Some 0) /\
    (MVM_spesh_usages_used_once g' v = Some 0 <-> MVM_spesh_usages_is_used g v = Some 1).
Proof.
  intros Hf. assert (Hs : is_Some (MVM_spesh_get_facts g v)) by (by rewrite Hf).
  unfold MVM_spesh_usages_add_by_reg. rewrite Hf. simpl.
  eexists. split; [reflexivity|].
  unfold MVM_spesh_usages_is_used, MVM_spesh_usages_used_once.
  rewrite (get_facts_put_same g v _ Hs), Hf. simpl.
  destruct facts as [w [l d h]]; simpl.
  destruct d, h, l; simpl; repeat split; try done; by rewrite !orb_true_r.
Qed.

Lemma usages_add_then_queries_witness :
  MVM_spesh_get_facts Scenario.unregistered Scenario.V1 = Some (Scenario.fresh 16) /\
  exists g',
    MVM_spesh_usages_add_by_reg Scenario.unregistered Scenario.V1 Scenario.I2 = Some g' /\
    MVM_spesh_usages_is_used g' Scenario.V1 = Some 1 /\
    MVM_spesh_usages_used_once g' Scenario.V1 = Some 1.
Proof.
  split; [reflexivity|].
  destruct (usages_add_then_queries Scenario.unregistered Scenario.V1 _ Scenario.I2 eq_refl)
    as (g' & Hadd & Hused & Honce & _).
  exists g'. split; [exact Hadd|]. split; [exact Hused|]. apply Honce. reflexivity.
Defined.

(** X15: A removal that returns leaves the value unused exactly when the value
    was used once before the removal. *)
Theorem usages_delete_then_is_used (g g' : MVMSpeshGraph) (v : MVMSpeshOperand)
    (by_ins : MVMSpeshIns) :
  MVM_spesh_usages_delete_by_reg g v by_ins = Some (Returns g') ->
  MVM_spesh_usages_is_used g' v = Some 0 <-> MVM_spesh_usages_used_once g v = Some 1.
Proof.
  unfold MVM_spesh_usages_delete_by_reg.
  destruct (MVM_spesh_get_facts g v) as [facts|] eqn:Hf; simpl; [|done].
  assert (Hs : is_Some (MVM_spesh_get_facts g v)) by (by rewrite Hf).
  destruct (usages_delete_cases facts by_ins)
    as [[Hno ->]|(skipped & c & next & Heq & Hc & Hsk & ->)]; [done|].
  intros [= <-].
  unfold MVM_spesh_usages_is_used, MVM_spesh_usages_used_once.
  rewrite (get_facts_put_same g v _ Hs), Hf. simpl. rewrite Heq.
  destruct (deopt_required (usage facts)), (handler_required (usage facts)),
    skipped as [|s1 [|s2 skipped]], next; simpl; split; done.
Qed.

Lemma usages_delete_then_is_used_witness :
  MVM_spesh_usages_delete_by_reg Scenario.one_entry_short Scenario.V1 Scenario.I2
  = Some (Returns Scenario.unregistered) /\
  MVM_spesh_usages_used_once Scenario.one_entry_short Scenario.V1 = Some 1 /\
  MVM_spesh_usages_is_used Scenario.unregistered Scenario.V1 = Some 0.
Proof.
  split; [reflexivity|]. split; [reflexivity|].
  apply (usages_delete_then_is_used Scenario.one_entry_short Scenario.unregistered
           Scenario.V1 Scenario.I2 eq_refl).
  reflexivity.
Defined.

End Spesh.
